(** * auth-keycloak-server: the credential lifecycle and the authenticated proxy

    A shallow embedding of [src/utils.ts] and of the Express routes of the
    main server file, with the network, the Redis store and the Express
    response object made explicit:

    - JavaScript strings are [string] (read as UTF-8 bytes), a value that may
      be [undefined] or [null] is an [option];
    - every [await] on an outside service is a call recorded in a trace and
      answered by an oracle of the environment, which sees the calls made so
      far; a rejected promise is a thrown [JsError];
    - [res] is part of the state: status code, cookie directives, redirect
      location and the body given to [res.json]. *)

From Stdlib Require Import ZArith Ascii String List Lia Bool.
From Stdlib Require Import DecimalString DecimalPos DecimalFacts.
From stdpp Require Import base option gmap strings list fin_maps.
Import ListNotations.
Local Open Scope string_scope.
Local Open Scope Z_scope.

(** ** Strings as the handlers use them *)

Module Str.

(** [s.startsWith(p)], returning what follows the prefix. *)
Fixpoint strip_prefix (p s : string) : option string :=
  match p with
  | EmptyString => Some s
  | String c p' =>
      match s with
      | EmptyString => None
      | String d s' => if Ascii.eqb c d then strip_prefix p' s' else None
      end
  end.

(** [s.includes(sub)] *)
Fixpoint includes (sub s : string) : bool :=
  match strip_prefix sub s with
  | Some _ => true
  | None =>
      match s with
      | EmptyString => false
      | String _ s' => includes sub s'
      end
  end.

(** [s.replace(pat, rep)] with a string pattern: only the first occurrence
    is replaced ([rep] holds no [$] pattern in this program). *)
Fixpoint replace_first (pat rep s : string) : string :=
  match strip_prefix pat s with
  | Some rest => rep +:+ rest
  | None =>
      match s with
      | EmptyString => EmptyString
      | String c s' => String c (replace_first pat rep s')
      end
  end.

(** The longest prefix without the character [stop]: what [[^;]+] or an
    [indexOf] slice consumes. *)
Fixpoint take_until (stop : ascii) (s : string) : string :=
  match s with
  | EmptyString => EmptyString
  | String c s' => if Ascii.eqb c stop then EmptyString else String c (take_until stop s')
  end.

(** [s.match(/NAME=([^;]+)/)?.[1]]: the leftmost place where [NAME=] is
    followed by at least one character other than [;], and the greedy run
    of such characters there. *)
Fixpoint match_cookie (name s : string) : option string :=
  let here :=
    match strip_prefix (name +:+ "=") s with
    | Some rest =>
        match take_until ";" rest with
        | EmptyString => None
        | v => Some v
        end
    | None => None
    end in
  match here with
  | Some v => Some v
  | None =>
      match s with
      | EmptyString => None
      | String _ s' => match_cookie name s'
      end
  end.

(** How many times [sub] occurs in [s], overlaps included. *)
Fixpoint occurrences (sub s : string) : nat :=
  ((match strip_prefix sub s with Some _ => 1 | None => 0 end)
   + match s with
     | EmptyString => 0
     | String _ s' => occurrences sub s'
     end)%nat.

(** [parts.join(sep)] *)
Fixpoint join (sep : string) (parts : list string) : string :=
  match parts with
  | [] => ""
  | [p] => p
  | p :: rest => p +:+ sep +:+ join sep rest
  end.

Definition hex_upper (n : N) : ascii :=
  match n with
  | 0 => "0" | 1 => "1" | 2 => "2" | 3 => "3" | 4 => "4" | 5 => "5"
  | 6 => "6" | 7 => "7" | 8 => "8" | 9 => "9" | 10 => "A" | 11 => "B"
  | 12 => "C" | 13 => "D" | 14 => "E" | _ => "F"
  end%N%char.

(** [%XX] of one byte. *)
Definition percent (c : ascii) : string :=
  let n := N_of_ascii c in
  String "%" (String (hex_upper (n / 16)) (String (hex_upper (n mod 16)) EmptyString)).

Definition is_alnum (c : ascii) : bool :=
  let n := N_of_ascii c in
  ((48 <=? n) && (n <=? 57) || (65 <=? n) && (n <=? 90) || (97 <=? n) && (n <=? 122))%N.

Definition mem_ascii (c : ascii) (l : string) : bool :=
  existsb (Ascii.eqb c) (list_ascii_of_string l).

Fixpoint map_bytes (f : ascii -> string) (s : string) : string :=
  match s with
  | EmptyString => EmptyString
  | String c s' => f c +:+ map_bytes f s'
  end.

End Str.

(** ** The URL encoders of the platform

    [URLSearchParams.prototype.toString] (the application/x-www-form-urlencoded
    serializer) and the parameter serializer of axios. Both belong to the
    libraries the program runs on; they are written out here as those
    libraries document them, since the claims on the login redirect and on
    the proxied URL are about their output. *)

Module Url.

(** Form encoding of one byte: letters, digits and [*-._] stay, a space
    becomes [+], everything else is percent-encoded. *)
Definition form_byte (c : ascii) : string :=
  if Str.is_alnum c || Str.mem_ascii c "*-._" then String c EmptyString
  else if Ascii.eqb c " " then "+"
  else Str.percent c.

Definition form_encode : string -> string := Str.map_bytes form_byte.

(** [params.toString()] for a [URLSearchParams] built by [append]. *)
Definition URLSearchParams_toString (params : list (string * string)) : string :=
  Str.join "&" (map (fun kv => form_encode kv.1 +:+ "=" +:+ form_encode kv.2) params).

(** A [URL] object: its address, taken as absolute, already in the normal
    form [new URL] gives it and without a query of its own, and the
    [searchParams] appended to it. For an address that is not absolute
    [new URL] throws; with the configuration read from the environment that
    is a property of the deployment, outside this model. *)
Record URL := mkURL { base : string; searchParams : list (string * string) }.

Definition new_URL (address : string) : URL := mkURL address [].

Definition searchParams_append (k v : string) (u : URL) : URL :=
  mkURL (base u) (searchParams u ++ [(k, v)]).

Definition URL_toString (u : URL) : string :=
  match searchParams u with
  | [] => base u
  | ps => base u +:+ "?" +:+ URLSearchParams_toString ps
  end.

(** The [encode] of axios: [encodeURIComponent], after which [%3A %24 %2C]
    are turned back into [: $ ,] and [%20] into [+]; brackets stay
    percent-encoded. *)
Definition axios_byte (c : ascii) : string :=
  if Str.is_alnum c || Str.mem_ascii c "-_.!~*'()" then String c EmptyString
  else if Str.mem_ascii c ":$," then String c EmptyString
  else if Ascii.eqb c " " then "+"
  else Str.percent c.

Definition axios_encode : string -> string := Str.map_bytes axios_byte.

(** The serialized [params], for parameters with string values, one per
    key: a key that [req.query] holds with an array or an object as its
    value (a repeated or a bracketed parameter) is written by axios under
    bracketed keys and is outside this model. *)
Definition axios_serialize (params : list (string * string)) : string :=
  Str.join "&" (map (fun kv => axios_encode kv.1 +:+ "=" +:+ axios_encode kv.2) params).

(** [buildURL(url, params)] of axios: the address that goes on the wire. The
    serialized [params] are added after [?], or after [&] when the address
    already has a query; a fragment is dropped first. *)
Definition axios_buildURL (url : string) (params : list (string * string)) : string :=
  match axios_serialize params with
  | EmptyString => url
  | serialized =>
      let url' := Str.take_until "#" url in
      url' +:+ (if Str.includes "?" url' then "&" else "?") +:+ serialized
  end.

End Url.

(** ** JSON values and the JSON codec

    What [res.json] is given, what the provider and the backend answer, and
    what the cache holds in serialized form. Numbers are integers here: a
    number with a fraction or an exponent is outside this model, and
    [JSON_parse] refuses it; an integer is kept exact, where JavaScript
    rounds it from 2^53 on. Object fields are kept in the order written. *)

#[local] Set Warnings "-register-all".
Inductive Json : Type :=
| JNull
| JBool (b : bool)
| JNum (n : Z)
| JStr (s : string)
| JArr (items : list Json)
| JObj (fields : list (string * Json)).

Module JSON.

(** The double quote, code 34. *)
Definition dquote : ascii := ascii_of_N 34.

Definition hex_lower (n : N) : ascii :=
  match n with
  | 0 => "0" | 1 => "1" | 2 => "2" | 3 => "3" | 4 => "4" | 5 => "5"
  | 6 => "6" | 7 => "7" | 8 => "8" | 9 => "9" | 10 => "a" | 11 => "b"
  | 12 => "c" | 13 => "d" | 14 => "e" | _ => "f"
  end%N%char.

(** One byte of a string literal as [JSON.stringify] writes it. *)
Definition quote_byte (c : ascii) : string :=
  let n := N_of_ascii c in
  if Ascii.eqb c dquote then String "\" (String dquote EmptyString)
  else if Ascii.eqb c "\" then "\\"
  else if (n =? 8)%N then "\b"
  else if (n =? 12)%N then "\f"
  else if (n =? 10)%N then "\n"
  else if (n =? 13)%N then "\r"
  else if (n =? 9)%N then "\t"
  else if (n <? 32)%N then
    "\u00" +:+ String (hex_lower (n / 16)) (String (hex_lower (n mod 16)) EmptyString)
  else String c EmptyString.

Definition quote (s : string) : string :=
  String dquote (Str.map_bytes quote_byte s +:+ String dquote EmptyString).

Definition string_of_Z (n : Z) : string :=
  DecimalString.NilZero.string_of_int (Z.to_int n).

(** [JSON.stringify(v)] *)
Fixpoint stringify (v : Json) : string :=
  match v with
  | JNull => "null"
  | JBool true => "true"
  | JBool false => "false"
  | JNum n => string_of_Z n
  | JStr s => quote s
  | JArr items => "[" +:+ Str.join "," (map stringify items) +:+ "]"
  | JObj fields =>
      "{" +:+ Str.join "," (map (fun kv => quote kv.1 +:+ ":" +:+ stringify kv.2) fields) +:+ "}"
  end.

Definition is_ws (c : ascii) : bool :=
  let n := N_of_ascii c in ((n =? 32) || (n =? 9) || (n =? 10) || (n =? 13))%N.

Fixpoint skip_ws (s : string) : string :=
  match s with
  | String c s' => if is_ws c then skip_ws s' else s
  | EmptyString => EmptyString
  end.

Definition hex_val (c : ascii) : option N :=
  let n := N_of_ascii c in
  if ((48 <=? n) && (n <=? 57))%N then Some (n - 48)%N
  else if ((65 <=? n) && (n <=? 70))%N then Some (n - 55)%N
  else if ((97 <=? n) && (n <=? 102))%N then Some (n - 87)%N
  else None.

(** UTF-8 of a code point below 0x10000 that is no surrogate. *)
Definition utf8 (cp : N) : option string :=
  let b n := ascii_of_N n in
  if (cp <? 128)%N then Some (String (b cp) EmptyString)
  else if (cp <? 2048)%N then
    Some (String (b (192 + cp / 64)%N) (String (b (128 + cp mod 64)%N) EmptyString))
  else if ((55296 <=? cp) && (cp <=? 57343))%N then None
  else
    Some (String (b (224 + cp / 4096)%N)
         (String (b (128 + (cp / 64) mod 64)%N)
         (String (b (128 + cp mod 64)%N) EmptyString))).

(** The rest of a string literal after its opening quote: the text and
    what follows the closing quote. *)
Fixpoint parse_chars (s : string) : option (string * string) :=
  match s with
  | EmptyString => None
  | String c s' =>
      if Ascii.eqb c dquote then Some (EmptyString, s')
      else if Ascii.eqb c "\" then
        match s' with
        | String e s'' =>
            let simple (x : N) :=
              match parse_chars s'' with
              | Some (t, r) => Some (String (ascii_of_N x) t, r)
              | None => None
              end in
            if Ascii.eqb e dquote then simple 34%N
            else if Ascii.eqb e "\" then simple 92%N
            else if Ascii.eqb e "/" then simple 47%N
            else if Ascii.eqb e "b" then simple 8%N
            else if Ascii.eqb e "f" then simple 12%N
            else if Ascii.eqb e "n" then simple 10%N
            else if Ascii.eqb e "r" then simple 13%N
            else if Ascii.eqb e "t" then simple 9%N
            else if Ascii.eqb e "u" then
              match s'' with
              | String h1 (String h2 (String h3 (String h4 s3))) =>
                  match hex_val h1, hex_val h2, hex_val h3, hex_val h4, parse_chars s3 with
                  | Some a, Some b, Some c', Some d, Some (t, r) =>
                      match utf8 (((a * 16 + b) * 16 + c') * 16 + d)%N with
                      | Some bytes => Some (bytes +:+ t, r)
                      | None => None
                      end
                  | _, _, _, _, _ => None
                  end
              | _ => None
              end
            else None
        | EmptyString => None
        end
      else if (N_of_ascii c <? 32)%N then None
      else
        match parse_chars s' with
        | Some (t, r) => Some (String c t, r)
        | None => None
        end
  end.

Definition is_digit (c : ascii) : bool :=
  let n := N_of_ascii c in ((48 <=? n) && (n <=? 57))%N.

Fixpoint parse_digits (acc : Z) (s : string) : Z * string :=
  match s with
  | String c s' =>
      if is_digit c then parse_digits (acc * 10 + Z.of_N (N_of_ascii c) - 48) s'
      else (acc, s)
  | EmptyString => (acc, s)
  end.

(** An integer literal: [0] or a run of digits without a leading zero; a
    fraction or an exponent after it is refused. *)
Definition parse_nat (s : string) : option (Z * string) :=
  match s with
  | String c s' =>
      if is_digit c then
        let '(n, r) := if Ascii.eqb c "0" then (0, s') else parse_digits 0 s in
        match r with
        | String d _ =>
            if is_digit d || Str.mem_ascii d ".eE" then None else Some (n, r)
        | EmptyString => Some (n, r)
        end
      else None
  | EmptyString => None
  end.

Fixpoint parse_value (fuel : nat) (s : string) : option (Json * string) :=
  match fuel with
  | O => None
  | S fuel' =>
      match skip_ws s with
      | EmptyString => None
      | String c r =>
          if Ascii.eqb c "n" then (fun r' => (JNull, r')) <$> Str.strip_prefix "ull" r
          else if Ascii.eqb c "t" then (fun r' => (JBool true, r')) <$> Str.strip_prefix "rue" r
          else if Ascii.eqb c "f" then (fun r' => (JBool false, r')) <$> Str.strip_prefix "alse" r
          else if Ascii.eqb c dquote then (fun tr => (JStr tr.1, tr.2)) <$> parse_chars r
          else if Ascii.eqb c "-" then (fun nr => (JNum (- nr.1), nr.2)) <$> parse_nat r
          else if Ascii.eqb c "[" then
            match skip_ws r with
            | String "]" r' => Some (JArr [], r')
            | _ => parse_items fuel' r []
            end
          else if Ascii.eqb c "{" then
            match skip_ws r with
            | String "}" r' => Some (JObj [], r')
            | _ => parse_fields fuel' r []
            end
          else (fun nr => (JNum nr.1, nr.2)) <$> parse_nat (String c r)
      end
  end
with parse_items (fuel : nat) (s : string) (acc : list Json) : option (Json * string) :=
  match fuel with
  | O => None
  | S fuel' =>
      match parse_value fuel' s with
      | Some (v, r) =>
          match skip_ws r with
          | String "," r' => parse_items fuel' r' (acc ++ [v])
          | String "]" r' => Some (JArr (acc ++ [v]), r')
          | _ => None
          end
      | None => None
      end
  end
with parse_fields (fuel : nat) (s : string) (acc : list (string * Json)) : option (Json * string) :=
  match fuel with
  | O => None
  | S fuel' =>
      match skip_ws s with
      | String c r =>
          match (if Ascii.eqb c dquote then parse_chars r else None) with
          | Some (k, r1) =>
              match skip_ws r1 with
              | String ":" r2 =>
                  match parse_value fuel' r2 with
                  | Some (v, r3) =>
                      match skip_ws r3 with
                      | String "," r' => parse_fields fuel' r' (acc ++ [(k, v)])
                      | String "}" r' => Some (JObj (acc ++ [(k, v)]), r')
                      | _ => None
                      end
                  | None => None
                  end
              | _ => None
              end
          | None => None
          end
      | EmptyString => None
      end
  end.

(** [JSON.parse(text)]; [None] is the [SyntaxError] it throws. A text that
    holds a number with a fraction or an exponent is outside the model:
    nothing below is stated about a run that parses such a text. *)
Definition parse (text : string) : option Json :=
  match parse_value (2 + 2 * String.length text) text with
  | Some (v, r) => match skip_ws r with EmptyString => Some v | _ => None end
  | None => None
  end.


(** *** What the proof of the round trip speaks of *)

(** What may follow a number: the end of the text, or a character that
    neither continues the digits nor opens a fraction or an exponent. *)
Definition ends_number (rest : string) : Prop :=
  match rest with
  | EmptyString => True
  | String d _ => is_digit d || Str.mem_ascii d ".eE" = false
  end.

(** The first character of a serialized value opens a value: it is no
    white space and closes no array. *)
Definition opens_value (text : string) : Prop :=
  match text with
  | EmptyString => False
  | String c _ => is_ws c = false ∧ Ascii.eqb c "]" = false
  end.

(** The fuel a value needs. *)
Fixpoint need (v : Json) : nat :=
  match v with
  | JArr items => S (list_sum (map (λ item, S (need item)) items))
  | JObj fields => S (list_sum (map (λ kv, S (need kv.2)) fields))
  | _ => 1
  end.

Definition items_text (items : list Json) : string :=
  Str.join "," (map stringify items).

Definition fields_text (fields : list (string * Json)) : string :=
  Str.join "," (map (λ kv, quote kv.1 +:+ ":" +:+ stringify kv.2) fields).

End JSON.


(** ** JavaScript values that may be missing *)

(** The value of [v] when [v] is truthy: a string that is neither
    [undefined] nor empty. *)
Definition truthy (v : option string) : option string :=
  match v with
  | Some EmptyString => None
  | Some s => Some s
  | None => None
  end.

(** [a || b] on strings that may be [undefined]. *)
Definition js_or (a b : option string) : option string :=
  match truthy a with
  | Some s => Some s
  | None => b
  end.

(** ** Configuration: the constants of [src/utils.ts] *)

Record ProcessEnv := {
  env_KEYCLOAK_URL : option string;
  env_KEYCLOAK_REALM : option string;
  env_KEYCLOAK_CLIENT_ID : option string;
  env_KEYCLOAK_CLIENT_SECRET : option string;
  env_BASE_URL : option string;
  env_API_BASE_URL : option string;
  env_APP_URL : option string;
  env_NODE_ENV : option string
}.

(** [process.env.NAME || fallback] *)
Definition or_default (v : option string) (fallback : string) : string :=
  match truthy v with
  | Some s => s
  | None => fallback
  end.

Definition KEYCLOAK_URL (p : ProcessEnv) := or_default (env_KEYCLOAK_URL p) "http://localhost:8081".
Definition REALM (p : ProcessEnv) := or_default (env_KEYCLOAK_REALM p) "dumper".
Definition CLIENT_ID (p : ProcessEnv) := or_default (env_KEYCLOAK_CLIENT_ID p) "nextjs-app".
Definition CLIENT_SECRET (p : ProcessEnv) := or_default (env_KEYCLOAK_CLIENT_SECRET p) "your-secret".
Definition BASE_URL (p : ProcessEnv) := or_default (env_BASE_URL p) "http://localhost:4000".
Definition REDIRECT_URI (p : ProcessEnv) := BASE_URL p +:+ "/auth/callback".
Definition API_BASE_URL (p : ProcessEnv) := or_default (env_API_BASE_URL p) "http://localhost:8080/api/v1".
Definition APP_URL (p : ProcessEnv) := or_default (env_APP_URL p) "http://localhost:3000".

(** [process.env.NODE_ENV === 'production'] *)
Definition production (p : ProcessEnv) : bool :=
  match env_NODE_ENV p with
  | Some s => String.eqb s "production"
  | None => false
  end.

(** No variable set: every constant takes its fallback. *)
Definition no_env : ProcessEnv :=
  {| env_KEYCLOAK_URL := None; env_KEYCLOAK_REALM := None;
     env_KEYCLOAK_CLIENT_ID := None; env_KEYCLOAK_CLIENT_SECRET := None;
     env_BASE_URL := None; env_API_BASE_URL := None; env_APP_URL := None;
     env_NODE_ENV := None |}.

(** ** Requests, responses and the outside world *)

(** The part of an Express request the handlers read. [cookies] is what
    cookie-parser left in [req.cookies], [headers_cookie] the raw header;
    [query] holds the string-valued parameters of [req.query]. *)
Record Request := {
  method : string;
  originalUrl : string;
  query : list (string * string);
  body : Json;
  cookies : gmap string string;
  headers_cookie : option string
}.

Record Cookie := {
  name : string;
  value : string;
  httpOnly : bool;
  secure : bool;
  sameSite : string;
  maxAge : Z;
  path : string
}.

Inductive Sent :=
| NotSent
| SentJson (payload : Json)
| SentRedirect (location : string).

(** The Express response object, as far as the handlers write to it. *)
Record Res := { statusCode : Z; set_cookies : list Cookie; sent : Sent }.

Definition fresh_res : Res := {| statusCode := 200; set_cookies := []; sent := NotSent |}.

Record AxiosConfig := {
  ax_method : string;
  ax_url : string;
  ax_headers : list (string * string);
  ax_data : Json;
  ax_params : list (string * string)
}.

(** One awaited call on an outside service, with the arguments the source
    gives it. *)
Inductive Call :=
| RedisGet (key : string)
| RedisSet (key val : string) (EX : Z)
| AxiosGet (url : string) (headers : list (string * string))
| AxiosPost (url payload : string) (headers : list (string * string))
| Axios (config : AxiosConfig).

(** What a server does with an HTTP request. *)
Inductive Upstream (D : Type) :=
| Reply (status : Z) (data : D)
| NoReply (message : string).
Arguments Reply {D} status data.
Arguments NoReply {D} message.

(** The body of a token response, with the fields the program reads. *)
Record TokenData := {
  access_token : string;
  refresh_token : string;
  refresh_expires_in : option Z
}.

(** The pair [refreshTokens] returns. *)
Record Tokens := { tk_access_token : string; tk_refresh_token : string }.

Inductive JsError :=
| AxiosError (response_status : option Z) (message : string)
| RedisError (message : string)
| SyntaxError (message : string)
| TypeError (message : string).

(** [error.response?.status] *)
Definition error_response_status (e : JsError) : option Z :=
  match e with
  | AxiosError st _ => st
  | _ => None
  end.

(** The environment of one request. Each oracle is given the calls made so
    far, so that an answer may depend on what happened before (a token that
    works after a refresh, a backend that fails the second time). Time is in
    milliseconds. *)
Record Env := {
  now : Z;
  redis_reachable : list Call -> bool;
  provider_userinfo : list Call -> string -> list (string * string) -> Upstream Json;
  provider_token : list Call -> string -> string -> Upstream TokenData;
  backend : list Call -> AxiosConfig -> Upstream Json
}.

(** The state a handler runs in: the Redis store (each value with the time
    it expires at), the calls made so far, and [res]. *)
Record World := {
  store : gmap string (string * Z);
  trace : list Call;
  res : Res
}.

Definition start (st : gmap string (string * Z)) : World :=
  {| store := st; trace := []; res := fresh_res |}.

(** ** The monad of a handler: state, and exceptions for rejected promises *)

Inductive Outcome (A : Type) :=
| Ok (a : A)
| Throw (e : JsError).
Arguments Ok {A} a.
Arguments Throw {A} e.

Definition M (A : Type) : Type := World -> Outcome A * World.

Definition ret {A} (a : A) : M A := fun w => (Ok a, w).

Definition bind {A B} (m : M A) (k : A -> M B) : M B :=
  fun w =>
    match m w with
    | (Ok a, w') => k a w'
    | (Throw e, w') => (Throw e, w')
    end.

Definition throw {A} (e : JsError) : M A := fun w => (Throw e, w).

(** [try { body } catch (error) { handler }] *)
Definition try_catch {A} (body : M A) (handler : JsError -> M A) : M A :=
  fun w =>
    match body w with
    | (Ok a, w') => (Ok a, w')
    | (Throw e, w') => handler e w'
    end.

Declare Scope js_scope.
Delimit Scope js_scope with js.
Notation "x <- m ;; k" := (bind m (fun x => k))
  (at level 100, m at next level, right associativity) : js_scope.
Notation "m ;; k" := (bind m (fun _ => k))
  (at level 100, right associativity) : js_scope.
Local Open Scope js_scope.

Definition log (c : Call) (w : World) : World :=
  {| store := store w; trace := trace w ++ [c]; res := res w |}.

Definition with_res (f : Res -> Res) : M unit :=
  fun w => (Ok tt, {| store := store w; trace := trace w; res := f (res w) |}).

(** *** The response object *)

Definition res_status (code : Z) : M unit :=
  with_res (fun r => {| statusCode := code; set_cookies := set_cookies r; sent := sent r |}).

Definition res_json (payload : Json) : M unit :=
  with_res (fun r => {| statusCode := statusCode r; set_cookies := set_cookies r;
                        sent := SentJson payload |}).

(** A time value a [Date] can hold: at most 8.64e15 ms from the epoch on
    either side. [new Date(t)] is an invalid date outside of it. *)
Definition date_in_range (t : Z) : bool :=
  (-8640000000000000 <=? t) && (t <=? 8640000000000000).

(** [res.redirect(url)]: status 302 and a [Location] header. *)
Definition res_redirect (url : string) : M unit :=
  with_res (fun r => {| statusCode := 302; set_cookies := set_cookies r;
                        sent := SentRedirect url |}).

(** *** Redis *)

(** What a reachable Redis answers to [GET key] at time [t]: the value,
    unless the key is absent or has expired. *)
Definition store_get (t : Z) (st : gmap string (string * Z)) (key : string) : option string :=
  match st !! key with
  | Some (v, expires) => if (t <? expires)%Z then Some v else None
  | None => None
  end.

(** What [SET key v EX seconds] at time [t] leaves in the store. *)
Definition store_set (t : Z) (st : gmap string (string * Z)) (key v : string) (seconds : Z)
  : gmap string (string * Z) :=
  <[key := (v, t + seconds * 1000)]> st.

Definition unreachable : JsError := RedisError "Reached the max retries per request limit".

(** *** axios *)

(** axios resolves on a 2xx status and rejects on anything else; without
    an answer the error has no [response]. *)
Definition settle {D} (u : Upstream D) : Outcome D :=
  match u with
  | Reply status data =>
      if ((200 <=? status) && (status <? 300))%Z then Ok data
      else Throw (AxiosError (Some status) "Request failed")
  | NoReply message => Throw (AxiosError None message)
  end.

Section Handlers.

Variable penv : ProcessEnv.
Variable env : Env.

(** [res.cookie(name, value, options)] with a [maxAge]. Express computes
    the expiry date [new Date(Date.now() + maxAge)] and hands it to the
    cookie serializer, which throws a [TypeError] when that date is
    invalid; otherwise the directive is added to the response. The names,
    the path and the other options of this program are always accepted. *)
Definition res_cookie (c : Cookie) : M unit :=
  if date_in_range (now env + maxAge c) then
    with_res (fun r => {| statusCode := statusCode r; set_cookies := set_cookies r ++ [c];
                          sent := sent r |})
  else throw (TypeError "option expires is invalid").

(** [await redis.get(key)] *)
Definition redis_get (key : string) : M (option string) :=
  fun w =>
    let w' := log (RedisGet key) w in
    if redis_reachable env (trace w) then (Ok (store_get (now env) (store w) key), w')
    else (Throw unreachable, w').

(** [await redis.set(key, value, 'EX', seconds)] *)
Definition redis_set (key v : string) (seconds : Z) : M unit :=
  fun w =>
    let w' := log (RedisSet key v seconds) w in
    if redis_reachable env (trace w) then
      (Ok tt, {| store := store_set (now env) (store w) key v seconds;
                 trace := trace w'; res := res w' |})
    else (Throw unreachable, w').

(** [await axios.get(url, { headers })], here always the userinfo endpoint *)
Definition axios_get (url : string) (headers : list (string * string)) : M Json :=
  fun w => (settle (provider_userinfo env (trace w) url headers), log (AxiosGet url headers) w).

(** [await axios.post(url, body, { headers })], here always the token endpoint *)
Definition axios_post (url payload : string) (headers : list (string * string)) : M TokenData :=
  fun w => (settle (provider_token env (trace w) url payload), log (AxiosPost url payload headers) w).

(** [await axios(config)], here always the backend *)
Definition axios (config : AxiosConfig) : M Json :=
  fun w => (settle (backend env (trace w) config), log (Axios config) w).

(** [JSON.parse(text)] in a handler: a [SyntaxError] is thrown. *)
Definition json_parse (text : string) : M Json :=
  match JSON.parse text with
  | Some v => ret v
  | None => throw (SyntaxError "Unexpected token in JSON")
  end.

(** ** [refreshTokens] of [src/utils.ts] *)

Definition token_endpoint : string :=
  KEYCLOAK_URL penv +:+ "/realms/" +:+ REALM penv +:+ "/protocol/openid-connect/token".

Definition userinfo_endpoint : string :=
  KEYCLOAK_URL penv +:+ "/realms/" +:+ REALM penv +:+ "/protocol/openid-connect/userinfo".

Definition form_headers : list (string * string) :=
  [("Content-Type", "application/x-www-form-urlencoded")].

Definition access_cookie (v : string) : Cookie :=
  {| name := "access_token"; value := v; httpOnly := true; secure := production penv;
     sameSite := "lax"; maxAge := 3600 * 1000; path := "/" |}.

(** [maxAge: data.refresh_expires_in * 1000 || 30 * 24 * 3600 * 1000]: a
    missing or zero lifetime gives thirty days. *)
Definition refresh_maxAge (data : TokenData) : Z :=
  match refresh_expires_in data with
  | Some n => if n * 1000 =? 0 then 30 * 24 * 3600 * 1000 else n * 1000
  | None => 30 * 24 * 3600 * 1000
  end.

Definition refresh_cookie (data : TokenData) : Cookie :=
  {| name := "refresh_token"; value := refresh_token data; httpOnly := true;
     secure := production penv; sameSite := "lax"; maxAge := refresh_maxAge data;
     path := "/" |}.

(** The [params] of [refreshTokens]. *)
Definition refresh_params (refreshToken : string) : list (string * string) :=
  [("grant_type", "refresh_token"); ("client_id", CLIENT_ID penv);
   ("client_secret", CLIENT_SECRET penv); ("refresh_token", refreshToken)].

Definition refreshTokens (refreshToken : string) : M (option Tokens) :=
  try_catch
    (let params := refresh_params refreshToken in
     data <- axios_post token_endpoint (Url.URLSearchParams_toString params) form_headers ;;
     res_cookie (access_cookie (access_token data)) ;;
     res_cookie (refresh_cookie data) ;;
     ret (Some {| tk_access_token := access_token data;
                  tk_refresh_token := refresh_token data |}))
    (fun error => ret None).

(** ** The routes *)

(** 1. [GET /auth/login] *)
Definition auth_endpoint : string :=
  KEYCLOAK_URL penv +:+ "/realms/" +:+ REALM penv +:+ "/protocol/openid-connect/auth".

Definition authUrl : Url.URL :=
  Url.searchParams_append "scope" "openid profile email"
    (Url.searchParams_append "response_type" "code"
      (Url.searchParams_append "redirect_uri" (REDIRECT_URI penv)
        (Url.searchParams_append "client_id" (CLIENT_ID penv)
          (Url.new_URL auth_endpoint)))).

Definition login (req : Request) : M unit :=
  res_redirect (Url.URL_toString authUrl).

(** 4. [GET /auth/validate] *)
Definition not_authenticated : Json := JObj [("isAuthenticated", JBool false)].

Definition authenticated (user : Json) : Json :=
  JObj [("isAuthenticated", JBool true); ("user", user)].

Definition cacheKey (token : string) : string := "userinfo:" +:+ token.

Definition bearer (token : string) : string := "Bearer " +:+ token.

(** [error.response?.status === 401 && refreshToken] *)
Definition should_refresh (error : JsError) (refreshToken : option string) : option string :=
  match error_response_status error with
  | Some status => if status =? 401 then truthy refreshToken else None
  | None => None
  end.

Definition validate_token (req : Request) : option string :=
  js_or (cookies req !! "access_token")
        (headers_cookie req ≫= Str.match_cookie "access_token").

Definition validate_refreshToken (req : Request) : option string :=
  js_or (cookies req !! "refresh_token")
        (headers_cookie req ≫= Str.match_cookie "refresh_token").

Definition validate (req : Request) : M unit :=
  let token := validate_token req in
  let refreshToken := validate_refreshToken req in
  match truthy token with
  | None => res_status 401 ;; res_json not_authenticated
  | Some token =>
      cached <- redis_get (cacheKey token) ;;
      match truthy cached with
      | Some cached => parsed <- json_parse cached ;; res_json parsed
      | None =>
          try_catch
            (response <- axios_get userinfo_endpoint [("Authorization", bearer token)] ;;
             let data := authenticated response in
             redis_set (cacheKey token) (JSON.stringify data) 300 ;;
             res_json data)
            (fun error =>
               match should_refresh error refreshToken with
               | Some refreshToken =>
                   tokens <- refreshTokens refreshToken ;;
                   match tokens with
                   | None => res_status 401 ;; res_json not_authenticated
                   | Some tokens =>
                       try_catch
                         (response <- axios_get userinfo_endpoint
                                        [("Authorization", bearer (tk_access_token tokens))] ;;
                          let newData := authenticated response in
                          redis_set (cacheKey (tk_access_token tokens))
                                    (JSON.stringify newData) 300 ;;
                          res_json newData)
                         (fun retryError => res_status 401 ;; res_json not_authenticated)
                   end
               | None => res_status 401 ;; res_json not_authenticated
               end)
      end
  end.

(** 5. [ALL /api/v1] *)
Definition unauthorized : Json := JObj [("error", JStr "Unauthorized")].

Definition api_error : Json := JObj [("error", JStr "API error")].

(** [req.originalUrl.replace('/api/v1', '') || ''] *)
Definition apiPath (req : Request) : string :=
  Str.replace_first "/api/v1" "" (originalUrl req).

Definition forward (req : Request) (token : string) : AxiosConfig :=
  {| ax_method := method req;
     ax_url := API_BASE_URL penv +:+ apiPath req;
     ax_headers := [("Authorization", bearer token); ("Content-Type", "application/json")];
     ax_data := body req;
     ax_params := query req |}.

(** [error.response?.status || 500] *)
Definition status_or_500 (error : JsError) : Z :=
  match error_response_status error with
  | Some status => if status =? 0 then 500 else status
  | None => 500
  end.

Definition proxy (req : Request) : M unit :=
  let token := cookies req !! "access_token" in
  let refreshToken := cookies req !! "refresh_token" in
  match truthy token with
  | None => res_status 401 ;; res_json unauthorized
  | Some token =>
      try_catch
        (response <- axios (forward req token) ;;
         res_json response)
        (fun error =>
           match should_refresh error refreshToken with
           | Some refreshToken =>
               tokens <- refreshTokens refreshToken ;;
               match tokens with
               | None => res_status 401 ;; res_json unauthorized
               | Some tokens =>
                   try_catch
                     (retryResponse <- axios (forward req (tk_access_token tokens)) ;;
                      res_json retryResponse)
                     (fun retryError => res_status 401 ;; res_json unauthorized)
               end
           | None => res_status (status_or_500 error) ;; res_json api_error
           end)
  end.

End Handlers.

(** The address axios puts on the wire for a request it is given. *)
Definition wire_url (config : AxiosConfig) : string :=
  Url.axios_buildURL (ax_url config) (ax_params config).

(** ** Reading a run *)

(** A handler run from a fresh response object on a given store. *)
Definition run {A} (m : M A) (st : gmap string (string * Z)) : Outcome A * World :=
  m (start st).

Definition is_refresh (c : Call) : bool :=
  match c with AxiosPost _ _ _ => true | _ => false end.

Definition is_userinfo (c : Call) : bool :=
  match c with AxiosGet _ _ => true | _ => false end.

Definition is_backend (c : Call) : bool :=
  match c with Axios _ => true | _ => false end.

Fixpoint count (p : Call -> bool) (t : list Call) : nat :=
  match t with
  | [] => 0%nat
  | c :: t' => ((if p c then 1 else 0) + count p t')%nat
  end.

(** ** Concrete requests and environments *)

Module Scenario.

Definition projects_body : Json := JArr [JObj [("id", JNum 1)]].

(** [GET /api/v1/projects?limit=10] with both cookies. *)
Definition projects : Request :=
  {| method := "GET"; originalUrl := "/api/v1/projects?limit=10";
     query := [("limit", "10")]; body := JObj [];
     cookies := {[ "access_token" := "AT1"; "refresh_token" := "RT1" ]};
     headers_cookie := Some "access_token=AT1; refresh_token=RT1" |}.

Definition fresh_tokens : TokenData :=
  {| access_token := "AT2"; refresh_token := "RT2"; refresh_expires_in := Some 2592000 |}.

Definition has_bearer (token : string) (headers : list (string * string)) : bool :=
  existsb (fun h => String.eqb h.1 "Authorization" && String.eqb h.2 (bearer token)) headers.

(** The access token [AT1] has expired, [AT2] is good, and the provider
    exchanges the refresh token for [AT2]. *)
Definition expired : Env :=
  {| now := 1000;
     redis_reachable := fun _ => true;
     provider_userinfo := fun _ _ headers =>
       if has_bearer "AT2" headers then Reply 200 (JObj [("sub", JStr "u1")])
       else Reply 401 JNull;
     provider_token := fun _ _ _ => Reply 200 fresh_tokens;
     backend := fun _ config =>
       if has_bearer "AT2" (ax_headers config) then Reply 200 projects_body
       else Reply 401 JNull |}.

(** The same request without the refresh cookie. *)
Definition projects_without_refresh : Request :=
  {| method := "GET"; originalUrl := "/api/v1/projects?limit=10";
     query := [("limit", "10")]; body := JObj [];
     cookies := {[ "access_token" := "AT1" ]};
     headers_cookie := Some "access_token=AT1" |}.

(** The provider refuses the refresh token as well. *)
Definition revoked : Env :=
  {| now := 1000;
     redis_reachable := fun _ => true;
     provider_userinfo := fun _ _ _ => Reply 401 JNull;
     provider_token := fun _ _ _ =>
       Reply 400 {| access_token := ""; refresh_token := ""; refresh_expires_in := None |};
     backend := fun _ _ => Reply 401 JNull |}.

(** The refresh works, but the backend is out of service when the retry
    arrives. *)
Definition overloaded : Env :=
  {| now := 1000;
     redis_reachable := fun _ => true;
     provider_userinfo := provider_userinfo expired;
     provider_token := provider_token expired;
     backend := fun _ config =>
       if has_bearer "AT2" (ax_headers config) then Reply 503 JNull
       else Reply 401 JNull |}.

(** The provider accepts [AT1]; Redis cannot be reached. *)
Definition cache_down : Env :=
  {| now := 1000;
     redis_reachable := fun _ => false;
     provider_userinfo := fun _ _ _ => Reply 200 (JObj [("sub", JStr "u1")]);
     provider_token := provider_token expired;
     backend := fun _ _ => Reply 200 projects_body |}.

(** The same, with Redis going away after the lookup. *)
Definition cache_lost : Env :=
  {| now := 1000;
     redis_reachable := fun before => match before with [] => true | _ => false end;
     provider_userinfo := provider_userinfo cache_down;
     provider_token := provider_token expired;
     backend := backend cache_down |}.

(** The same, with Redis in service, at a given time. *)
Definition cache_up (t : Z) : Env :=
  {| now := t;
     redis_reachable := fun _ => true;
     provider_userinfo := provider_userinfo cache_down;
     provider_token := provider_token expired;
     backend := backend cache_down |}.

(** The provider has withdrawn every token, at a given time. *)
Definition withdrawn (t : Z) : Env :=
  {| now := t;
     redis_reachable := fun _ => true;
     provider_userinfo := fun _ _ _ => Reply 401 JNull;
     provider_token := provider_token revoked;
     backend := fun _ _ => Reply 401 JNull |}.

(** A request with no cookie at all. *)
Definition anonymous : Request :=
  {| method := "GET"; originalUrl := "/api/v1/projects?limit=10";
     query := [("limit", "10")]; body := JObj [];
     cookies := ∅; headers_cookie := None |}.

End Scenario.

(** ** Further requests and environments *)

Module Cases.

(** The backend accepts with 201. *)
Definition created : Env :=
  {| now := 1000;
     redis_reachable := fun _ => true;
     provider_userinfo := provider_userinfo Scenario.cache_down;
     provider_token := provider_token Scenario.expired;
     backend := fun _ _ => Reply 201 Scenario.projects_body |}.

(** The backend and the provider are out of service. *)
Definition out_of_service : Env :=
  {| now := 1000;
     redis_reachable := fun _ => true;
     provider_userinfo := fun _ _ _ => Reply 503 JNull;
     provider_token := fun _ _ _ => Reply 503 Scenario.fresh_tokens;
     backend := fun _ _ => Reply 503 (JObj [("detail", JStr "maintenance")]) |}.

(** Nothing answers. *)
Definition offline : Env :=
  {| now := 1000;
     redis_reachable := fun _ => true;
     provider_userinfo := fun _ _ _ => NoReply "ECONNREFUSED";
     provider_token := fun _ _ _ => NoReply "ECONNREFUSED";
     backend := fun _ _ => NoReply "ECONNREFUSED" |}.

(** A request whose only cookie is named [my_access_token]. *)
Definition foreign_cookie : Request :=
  {| method := "GET"; originalUrl := "/api/v1/projects"; query := []; body := JObj [];
     cookies := {[ "my_access_token" := "other" ]};
     headers_cookie := Some "my_access_token=other" |}.

(** The mount path twice, and in capitals. *)
Definition nested : Request :=
  {| method := "GET"; originalUrl := "/api/v1/api/v1/users"; query := []; body := JObj [];
     cookies := {[ "access_token" := "AT1" ]}; headers_cookie := Some "access_token=AT1" |}.

Definition capitals : Request :=
  {| method := "GET"; originalUrl := "/API/V1/users"; query := []; body := JObj [];
     cookies := {[ "access_token" := "AT1" ]}; headers_cookie := Some "access_token=AT1" |}.

(** The request of a client that holds the renewed cookies. *)
Definition renewed_request : Request :=
  {| method := "GET"; originalUrl := "/auth/validate"; query := []; body := JObj [];
     cookies := {[ "access_token" := "AT2"; "refresh_token" := "RT2" ]};
     headers_cookie := Some "access_token=AT2; refresh_token=RT2" |}.

(** The provider accepts the refresh token and the code, and gives the
    refresh token a lifetime of 1e13 seconds. *)
Definition endless_tokens : TokenData :=
  {| access_token := "AT2"; refresh_token := "RT2";
     refresh_expires_in := Some 10000000000000 |}.

Definition endless : Env :=
  {| now := 1000;
     redis_reachable := fun _ => true;
     provider_userinfo := provider_userinfo Scenario.expired;
     provider_token := fun _ _ _ => Reply 200 endless_tokens;
     backend := backend Scenario.expired |}.

End Cases.

(** * The remaining routes *)

(** What [req.query.code] may be once Express has parsed the query string:
    missing, one string, or an array or object when the parameter is
    repeated or written with brackets. *)
Inductive QueryValue :=
| QUndefined
| QString (s : string)
| QStructured.

(** The value of [code] when [!code || typeof code !== 'string'] is false. *)
Definition usable_code (code : QueryValue) : option string :=
  match code with
  | QString s => truthy (Some s)
  | _ => None
  end.

Definition invalid_code : Json := JObj [("error", JStr "Invalid authorization code")].

Definition authentication_failed : Json := JObj [("error", JStr "Authentication failed")].

Section Callback.

Variable penv : ProcessEnv.
Variable env : Env.

(** The [params] of the callback handler. *)
Definition exchange_params (code : string) : list (string * string) :=
  [("grant_type", "authorization_code"); ("client_id", CLIENT_ID penv);
   ("client_secret", CLIENT_SECRET penv); ("code", code);
   ("redirect_uri", REDIRECT_URI penv)].

(** 2. [GET /auth/callback]; [code] is [req.query.code], the only thing the
    handler reads from the request. *)
Definition callback (code : QueryValue) : M unit :=
  match usable_code code with
  | None => res_status 400 ;; res_json invalid_code
  | Some code =>
      try_catch
        (let params := exchange_params code in
         data <- axios_post env (token_endpoint penv)
                   (Url.URLSearchParams_toString params) form_headers ;;
         res_cookie env (access_cookie penv (access_token data)) ;;
         res_cookie env (refresh_cookie penv data) ;;
         res_redirect (APP_URL penv))
        (fun error => res_status 500 ;; res_json authentication_failed)
  end.

End Callback.

(** 3. [GET /auth/logout]. [res.clearCookie(name, options)] writes a
    directive for [name] with an empty value and an expiry date in the past,
    on the path [/] unless [options] says otherwise; of such a directive the
    name, the path and the [sameSite] option are kept here. The handler
    awaits nothing and reads nothing from the request. *)
Record Cleared := { cleared_name : string; cleared_path : string; cleared_sameSite : string }.

Record LogoutAnswer := {
  cleared : list Cleared;
  logout_status : Z;
  logout_location : string
}.

Definition logout_endpoint (penv : ProcessEnv) : string :=
  KEYCLOAK_URL penv +:+ "/realms/" +:+ REALM penv +:+ "/protocol/openid-connect/logout".

Definition logoutUrl (penv : ProcessEnv) : Url.URL :=
  Url.searchParams_append "client_id" (CLIENT_ID penv)
    (Url.searchParams_append "post_logout_redirect_uri" (APP_URL penv)
      (Url.new_URL (logout_endpoint penv))).

Definition logout (penv : ProcessEnv) : LogoutAnswer :=
  {| cleared :=
       [ {| cleared_name := "access_token"; cleared_path := "/"; cleared_sameSite := "lax" |};
         {| cleared_name := "refresh_token"; cleared_path := "/"; cleared_sameSite := "lax" |} ];
     logout_status := 302;
     logout_location := Url.URL_toString (logoutUrl penv) |}.

(** * The vocabulary of the properties *)

(** The world a handler leaves when it has answered. *)
Definition answered (st : gmap string (string * Z)) (calls : list Call)
    (code : Z) (directives : list Cookie) (payload : Json) : World :=
  {| store := st; trace := calls;
     res := {| statusCode := code; set_cookies := directives; sent := SentJson payload |} |}.

(** The refresh call [refreshTokens] makes for a refresh token. *)
Definition refresh_call (penv : ProcessEnv) (refreshToken : string) : Call :=
  AxiosPost (token_endpoint penv)
            (Url.URLSearchParams_toString (refresh_params penv refreshToken))
            form_headers.

(** The provider's answer to that call after the calls [before]. *)
Definition refresh_reply (penv : ProcessEnv) (env : Env) (before : list Call)
    (refreshToken : string) : Upstream TokenData :=
  provider_token env before (token_endpoint penv)
    (Url.URLSearchParams_toString (refresh_params penv refreshToken)).

Definition userinfo_call (penv : ProcessEnv) (token : string) : Call :=
  AxiosGet (userinfo_endpoint penv) [("Authorization", bearer token)].

Definition userinfo_reply (penv : ProcessEnv) (env : Env) (before : list Call)
    (token : string) : Upstream Json :=
  provider_userinfo env before (userinfo_endpoint penv) [("Authorization", bearer token)].

(** A refresh is refused: the provider answers outside 2xx, or not at all. *)
Definition refused {D} (u : Upstream D) : Prop :=
  match u with
  | Reply status _ => ¬ (200 ≤ status < 300)
  | NoReply _ => True
  end.

(** The two cookie directives of a successful refresh. *)
Definition renewed (penv : ProcessEnv) (data : TokenData) : list Cookie :=
  [access_cookie penv (access_token data); refresh_cookie penv data].

(** ** More to read in a run *)

Definition is_redis (c : Call) : bool :=
  match c with RedisGet _ | RedisSet _ _ _ => true | _ => false end.

(** The exchange call of the callback for a code. *)
Definition exchange_call (penv : ProcessEnv) (code : string) : Call :=
  AxiosPost (token_endpoint penv)
            (Url.URLSearchParams_toString (exchange_params penv code))
            form_headers.

Definition exchange_reply (penv : ProcessEnv) (env : Env) (code : string) : Upstream TokenData :=
  provider_token env [] (token_endpoint penv)
    (Url.URLSearchParams_toString (exchange_params penv code)).

(** A cookie directive as every handler writes it: one of the two names,
    [HttpOnly], [SameSite=Lax], on the path [/], [Secure] in production
    only. *)
Definition session_cookie (penv : ProcessEnv) (c : Cookie) : Prop :=
  (name c = "access_token" ∨ name c = "refresh_token")
  ∧ httpOnly c = true ∧ sameSite c = "lax" ∧ path c = "/"
  ∧ secure c = production penv.

(** The directive can be written now: its expiry date is a valid date. *)
Definition fits (env : Env) (c : Cookie) : Prop :=
  date_in_range (now env + maxAge c) = true.

(** Both directives of a token response can be written. *)
Definition renewal_fits (penv : ProcessEnv) (env : Env) (data : TokenData) : Prop :=
  fits env (access_cookie penv (access_token data)) ∧ fits env (refresh_cookie penv data).

(** The cookie directives of an answer: none, or those written for one
    token response, which are the access cookie alone when the refresh
    cookie could not be written, or the pair. *)
Definition token_cookies (penv : ProcessEnv) (directives : list Cookie) : Prop :=
  directives = []
  ∨ ∃ data, directives = [access_cookie penv (access_token data)]
            ∨ directives = renewed penv data.



(** What the client and the outside world see of a run: how it ended, the
    calls that were made, and the response. *)
Definition observed {A} (r : Outcome A * World) : Outcome A * list Call * Res :=
  (r.1, trace r.2, res r.2).

Arguments forward : simpl never.
Arguments token_endpoint : simpl never.
Arguments userinfo_endpoint : simpl never.
Arguments refresh_params : simpl never.
Arguments Url.URLSearchParams_toString : simpl never.
Arguments cacheKey : simpl never.
Arguments bearer : simpl never.
Arguments JSON.stringify : simpl never.
Arguments JSON.parse : simpl never.
Arguments access_cookie : simpl never.
Arguments refresh_cookie : simpl never.
Arguments store_get : simpl never.
Arguments store_set : simpl never.
Arguments exchange_params : simpl never.


(** * Proofs *)

(** ** The codec gives back what it wrote *)

Module JSONFacts.
Import JSON.

Lemma append_cons x a b : String x a +:+ b = String x (a +:+ b).
Proof. reflexivity. Qed.

Lemma append_assoc a b c : (a +:+ b) +:+ c = a +:+ b +:+ c.
Proof.
  induction a as [| x a IH]; [reflexivity |].
  by rewrite !append_cons, IH.
Qed.

Lemma length_append a b : String.length (a +:+ b) = (String.length a + String.length b)%nat.
Proof.
  induction a as [| x a IH]; [reflexivity |].
  rewrite append_cons. simpl. by rewrite IH.
Qed.

Lemma parse_chars_quote_byte c text :
  parse_chars (quote_byte c +:+ text)
  = match parse_chars text with
    | Some (t, r) => Some (String c t, r)
    | None => None
    end.
Proof.
  destruct c as [b0 b1 b2 b3 b4 b5 b6 b7].
  destruct b0, b1, b2, b3, b4, b5, b6, b7; reflexivity.
Qed.

Lemma parse_chars_quote s rest :
  parse_chars (Str.map_bytes quote_byte s +:+ String dquote rest) = Some (s, rest).
Proof.
  induction s as [| c s IH]; [reflexivity |].
  cbn [Str.map_bytes]. by rewrite append_assoc, parse_chars_quote_byte, IH.
Qed.

Lemma parse_digits_end acc rest : ends_number rest → parse_digits acc rest = (acc, rest).
Proof.
  destruct rest as [| d rest]; [reflexivity |].
  simpl. intros Hend. apply orb_false_elim in Hend as [Hdigit _]. by rewrite Hdigit.
Qed.

Lemma parse_digits_acc d a rest :
  ends_number rest →
  parse_digits (Z.pos a) (NilEmpty.string_of_uint d +:+ rest)
  = (Z.pos (Pos.of_uint_acc d a), rest).
Proof.
  intros Hend. revert a.
  induction d as [| d IH | d IH | d IH | d IH | d IH | d IH | d IH | d IH | d IH | d IH];
    intros a; cbn [NilEmpty.string_of_uint Pos.of_uint_acc];
    [by apply parse_digits_end | ..];
    rewrite append_cons; cbn [parse_digits is_digit]; simpl N_of_ascii; cbn -[Z.mul Z.add Z.sub];
    rewrite <- IH; f_equal; lia.
Qed.

Lemma parse_digits_zero d rest :
  ends_number rest →
  parse_digits 0 (NilEmpty.string_of_uint d +:+ rest) = (Z.of_N (Pos.of_uint d), rest).
Proof.
  intros Hend.
  induction d as [| d IH | d IH | d IH | d IH | d IH | d IH | d IH | d IH | d IH | d IH];
    cbn [NilEmpty.string_of_uint Pos.of_uint];
    [by apply parse_digits_end | by rewrite append_cons | ..];
    rewrite append_cons; cbn [parse_digits is_digit]; simpl N_of_ascii;
    cbn -[Z.mul Z.add Z.sub Pos.of_uint_acc];
    by rewrite <- (parse_digits_acc d _ rest Hend).
Qed.

Lemma to_uint_no_leading_zero p d : Pos.to_uint p ≠ Decimal.D0 d.
Proof.
  intros Hzero.
  assert (Decimal.unorm (Pos.to_uint p) = Pos.to_uint p) as Hnorm.
  { by rewrite <- (DecimalPos.Unsigned.to_of (Pos.to_uint p)), DecimalPos.Unsigned.of_to. }
  rewrite Hzero, DecimalFacts.unorm_D0 in Hnorm.
  destruct (Decimal.nzhead d) eqn:Hhead;
    [| rewrite DecimalFacts.unorm_nzhead in Hnorm by (by rewrite Hhead);
       by apply (DecimalFacts.nzhead_nonzero d d) ..].
  unfold Decimal.unorm in Hnorm. rewrite Hhead in Hnorm.
  injection Hnorm as <-. by apply (DecimalPos.Unsigned.to_uint_nonzero p).
Qed.

Lemma parse_nat_digits d rest :
  d ≠ Decimal.Nil → (∀ d', d ≠ Decimal.D0 d') → ends_number rest →
  parse_nat (NilEmpty.string_of_uint d +:+ rest) = Some (Z.of_N (Pos.of_uint d), rest).
Proof.
  intros Hnil Hzero Hend.
  pose proof (parse_digits_zero d rest Hend) as Hdigits.
  destruct d; [done | by edestruct Hzero | ..];
    cbn [NilEmpty.string_of_uint] in *; rewrite append_cons in *;
    unfold parse_nat; simpl (is_digit _); simpl (Ascii.eqb _ _); cbv iota;
    rewrite Hdigits;
    (destruct rest as [| c rest]; [reflexivity |]);
    simpl in Hend; by rewrite Hend.
Qed.

Lemma parse_nat_pos p rest :
  ends_number rest →
  parse_nat (string_of_Z (Z.pos p) +:+ rest) = Some (Z.pos p, rest).
Proof.
  intros Hend. unfold string_of_Z. cbn [Z.to_int NilZero.string_of_int].
  assert (NilZero.string_of_uint (Pos.to_uint p) = NilEmpty.string_of_uint (Pos.to_uint p)) as ->.
  { pose proof (DecimalPos.Unsigned.to_uint_nonnil p). by destruct (Pos.to_uint p). }
  rewrite parse_nat_digits; [| apply DecimalPos.Unsigned.to_uint_nonnil
                             | intros d'; apply to_uint_no_leading_zero | exact Hend].
  by rewrite DecimalPos.Unsigned.of_to.
Qed.

Lemma parse_nat_zero rest :
  ends_number rest → parse_nat (string_of_Z 0 +:+ rest) = Some (0, rest).
Proof.
  intros Hend. destruct rest as [| c rest]; [reflexivity |].
  simpl in Hend. change (string_of_Z 0) with "0". rewrite append_cons.
  unfold parse_nat. simpl (is_digit "0"). simpl (Ascii.eqb _ _). cbv iota.
  change ("" +:+ String c rest) with (String c rest). cbv beta iota. by rewrite Hend.
Qed.

Lemma opens_value_app text rest : opens_value text → opens_value (text +:+ rest).
Proof. by destruct text. Qed.

Lemma opens_value_uint d :
  d ≠ Decimal.Nil → opens_value (NilEmpty.string_of_uint d).
Proof. by destruct d. Qed.

Lemma opens_value_stringify v : opens_value (stringify v).
Proof.
  destruct v as [| [] | [| p | p] | s | items | fields]; try done.
  - unfold stringify, string_of_Z. cbn [Z.to_int NilZero.string_of_int].
    pose proof (DecimalPos.Unsigned.to_uint_nonnil p) as Hnil.
    destruct (Pos.to_uint p); try done.
Qed.

Lemma skip_ws_opens text : opens_value text → skip_ws text = text.
Proof. destruct text as [| c text]; [done |]. intros [Hws _]. simpl. by rewrite Hws. Qed.

Lemma parse_value_digits fuel c text :
  is_digit c = true →
  parse_value (S fuel) (String c text)
  = (λ nr, (JNum nr.1, nr.2)) <$> parse_nat (String c text).
Proof.
  destruct c as [b0 b1 b2 b3 b4 b5 b6 b7].
  destruct b0, b1, b2, b3, b4, b5, b6, b7; (discriminate || reflexivity).
Qed.

Lemma parse_value_array fuel text :
  opens_value text →
  parse_value (S fuel) (String "[" text) = parse_items fuel text [].
Proof.
  intros Hopen.
  transitivity (match skip_ws text with
                | String "]" r' => Some (JArr [], r')
                | _ => parse_items fuel text []
                end); [reflexivity |].
  rewrite (skip_ws_opens _ Hopen).
  destruct text as [| c text]; [done |]. destruct Hopen as [_ Hclose].
  destruct c as [b0 b1 b2 b3 b4 b5 b6 b7].
  destruct b0, b1, b2, b3, b4, b5, b6, b7; (discriminate || reflexivity).
Qed.

Lemma parse_items_S fuel text acc :
  parse_items (S fuel) text acc =
  match parse_value fuel text with
  | Some (v, r) =>
      match skip_ws r with
      | String "," r' => parse_items fuel r' (acc ++ [v])
      | String "]" r' => Some (JArr (acc ++ [v]), r')
      | _ => None
      end
  | None => None
  end.
Proof. reflexivity. Qed.

Lemma parse_fields_S fuel k text acc :
  parse_fields (S fuel) (quote k +:+ String ":" text) acc =
  match parse_value fuel text with
  | Some (v, r) =>
      match skip_ws r with
      | String "," r' => parse_fields fuel r' (acc ++ [(k, v)])
      | String "}" r' => Some (JObj (acc ++ [(k, v)]), r')
      | _ => None
      end
  | None => None
  end.
Proof.
  transitivity
    (match parse_chars (Str.map_bytes quote_byte k +:+ String dquote (String ":" text)) with
     | Some (k', r1) =>
         match skip_ws r1 with
         | String ":" r2 =>
             match parse_value fuel r2 with
             | Some (v, r3) =>
                 match skip_ws r3 with
                 | String "," r' => parse_fields fuel r' (acc ++ [(k', v)])
                 | String "}" r' => Some (JObj (acc ++ [(k', v)]), r')
                 | _ => None
                 end
             | None => None
             end
         | _ => None
         end
     | None => None
     end).
  - unfold quote. rewrite append_cons, append_assoc. reflexivity.
  - by rewrite parse_chars_quote.
Qed.

Lemma join_cons sep x y l : Str.join sep (x :: y :: l) = x +:+ sep +:+ Str.join sep (y :: l).
Proof. reflexivity. Qed.

Lemma append_nil a : "" +:+ a = a.
Proof. reflexivity. Qed.

Ltac flatten := repeat (rewrite append_assoc || rewrite append_cons || rewrite append_nil).

Lemma string_of_Z_pos_head p :
  ∃ c text, string_of_Z (Z.pos p) = String c text ∧ is_digit c = true.
Proof.
  unfold string_of_Z. cbn [Z.to_int NilZero.string_of_int].
  pose proof (DecimalPos.Unsigned.to_uint_nonnil p) as Hnil.
  destruct (Pos.to_uint p); [done | ..]; by eexists _, _.
Qed.

Lemma parse_number n rest :
  ends_number rest → parse_value 1 (string_of_Z n +:+ rest) = Some (JNum n, rest).
Proof.
  intros Hend. destruct n as [| p | p].
  - change (string_of_Z 0) with "0". rewrite append_cons.
    rewrite parse_value_digits by reflexivity.
    rewrite <- append_cons. change "0" with (string_of_Z 0).
    by rewrite parse_nat_zero.
  - destruct (string_of_Z_pos_head p) as (c & text & Heq & Hdigit).
    rewrite Heq, append_cons, parse_value_digits by exact Hdigit.
    rewrite <- append_cons, <- Heq. by rewrite parse_nat_pos.
  - transitivity ((λ nr : Z * string, (JNum (- nr.1), nr.2))
                    <$> parse_nat (string_of_Z (Z.pos p) +:+ rest)); [reflexivity |].
    by rewrite parse_nat_pos.
Qed.

Lemma parse_value_more fuel n rest :
  parse_value (S fuel) (string_of_Z n +:+ rest) = parse_value 1 (string_of_Z n +:+ rest).
Proof.
  destruct n as [| p | p]; [reflexivity | | reflexivity].
  destruct (string_of_Z_pos_head p) as (c & text & Heq & Hdigit).
  by rewrite Heq, append_cons, !parse_value_digits.
Qed.

Lemma items_text_cons item item' items :
  items_text (item :: item' :: items)
  = stringify item +:+ "," +:+ items_text (item' :: items).
Proof. reflexivity. Qed.

Lemma fields_text_cons k v kv fields :
  fields_text ((k, v) :: kv :: fields)
  = (quote k +:+ ":" +:+ stringify v) +:+ "," +:+ fields_text (kv :: fields).
Proof. reflexivity. Qed.

Lemma opens_value_items item items rest :
  opens_value (items_text (item :: items) +:+ rest).
Proof.
  apply opens_value_app. destruct items; [apply opens_value_stringify |].
  rewrite items_text_cons. apply opens_value_app, opens_value_stringify.
Qed.

Lemma parse_stringify_fuel fuel :
  (∀ v rest, (need v ≤ fuel)%nat → ends_number rest →
     parse_value fuel (stringify v +:+ rest) = Some (v, rest))
  ∧ (∀ items acc rest, items ≠ [] →
       (list_sum (map (λ item, S (need item)) items) ≤ fuel)%nat →
       parse_items fuel (items_text items +:+ String "]" rest) acc
       = Some (JArr (acc ++ items), rest))
  ∧ (∀ fields acc rest, fields ≠ [] →
       (list_sum (map (λ kv, S (need kv.2)) fields) ≤ fuel)%nat →
       parse_fields fuel (fields_text fields +:+ String "}" rest) acc
       = Some (JObj (acc ++ fields), rest)).
Proof.
  induction fuel as [| fuel (IHvalue & IHitems & IHfields)].
  { split; [| split].
    - intros v rest Hfuel. destruct v; simpl in Hfuel; lia.
    - intros [| item items] acc rest Hsome Hfuel; [done | simpl in Hfuel; lia].
    - intros [| kv fields] acc rest Hsome Hfuel; [done | simpl in Hfuel; lia]. }
  split; [| split].
  - intros v rest Hfuel Hend.
    destruct v as [| [] | n | s | items | fields]; try reflexivity.
    + change (stringify (JNum n)) with (string_of_Z n).
      by rewrite parse_value_more, parse_number.
    + change (stringify (JStr s)) with (quote s). unfold quote. flatten.
      transitivity ((λ tr : string * string, (JStr tr.1, tr.2))
                      <$> parse_chars (Str.map_bytes quote_byte s +:+ String dquote rest));
        [reflexivity |].
      by rewrite parse_chars_quote.
    + destruct items as [| item items]; [reflexivity |].
      change (stringify (JArr (item :: items)))
        with ("[" +:+ items_text (item :: items) +:+ "]").
      flatten. rewrite parse_value_array by apply opens_value_items.
      apply (IHitems (item :: items) []); [done |]. simpl in Hfuel. simpl. lia.
    + destruct fields as [| [k v] fields]; [reflexivity |].
      change (stringify (JObj ((k, v) :: fields)))
        with ("{" +:+ fields_text ((k, v) :: fields) +:+ "}").
      flatten.
      transitivity (parse_fields fuel (fields_text ((k, v) :: fields) +:+ String "}" rest) []).
      * destruct fields; [unfold fields_text; cbn [map Str.join] | rewrite fields_text_cons];
          unfold quote; flatten; reflexivity.
      * apply (IHfields ((k, v) :: fields) []); [done |]. simpl in Hfuel. simpl. lia.
  - intros [| item items] acc rest Hsome Hfuel; [done |].
    simpl in Hfuel. rewrite parse_items_S.
    destruct items as [| item' items].
    + unfold items_text. cbn [map Str.join].
      rewrite IHvalue; [reflexivity | lia | reflexivity].
    + rewrite items_text_cons. flatten.
      rewrite IHvalue; [| lia | reflexivity].
      transitivity (parse_items fuel (items_text (item' :: items) +:+ String "]" rest)
                      (acc ++ [item])); [reflexivity |].
      rewrite IHitems; [| done | lia].
      by rewrite <- app_assoc.
  - intros [| [k v] fields] acc rest Hsome Hfuel; [done |].
    simpl in Hfuel.
    destruct fields as [| kv fields].
    + unfold fields_text. cbn [map Str.join]. simpl (_.1). simpl (_.2). flatten.
      rewrite parse_fields_S.
      rewrite IHvalue; [reflexivity | lia | reflexivity].
    + rewrite fields_text_cons. flatten.
      rewrite parse_fields_S.
      rewrite IHvalue; [| lia | reflexivity].
      transitivity (parse_fields fuel (fields_text (kv :: fields) +:+ String "}" rest)
                      (acc ++ [(k, v)])); [reflexivity |].
      rewrite IHfields; [| done | lia].
      by rewrite <- app_assoc.
Qed.

(** Induction on a JSON value, with the property for the members of an
    array and for the values of an object. *)
Lemma Json_induction (P : Json → Prop) :
  P JNull →
  (∀ b, P (JBool b)) →
  (∀ n, P (JNum n)) →
  (∀ s, P (JStr s)) →
  (∀ items, Forall P items → P (JArr items)) →
  (∀ fields, Forall (λ kv, P kv.2) fields → P (JObj fields)) →
  ∀ v, P v.
Proof.
  intros Hnull Hbool Hnum Hstr Harr Hobj.
  fix IH 1. intros [| b | n | s | items | fields].
  - exact Hnull.
  - apply Hbool.
  - apply Hnum.
  - apply Hstr.
  - apply Harr. revert items. fix IHitems 1. intros [| item items].
    + constructor.
    + constructor; [apply IH | apply IHitems].
  - apply Hobj. revert fields. fix IHfields 1. intros [| [k v] fields].
    + constructor.
    + constructor; [apply IH | apply IHfields].
Qed.

Lemma stringify_nonempty v : (1 ≤ String.length (stringify v))%nat.
Proof.
  pose proof (opens_value_stringify v) as Hopen.
  destruct (stringify v); [done | simpl; lia].
Qed.

Lemma need_items_bound items :
  Forall (λ v, (need v ≤ 2 * String.length (stringify v))%nat) items →
  (list_sum (map (λ item, S (need item)) items)
   ≤ 2 * String.length (items_text items) + 1)%nat.
Proof.
  induction 1 as [| item items Hitem _ IH]; [simpl; lia |].
  destruct items as [| item' items].
  - unfold items_text. simpl. lia.
  - rewrite items_text_cons, !length_append.
    change (list_sum (map (λ item, S (need item)) (item :: item' :: items)))
      with (S (need item) + list_sum (map (λ item, S (need item)) (item' :: items)))%nat.
    simpl (String.length ","). lia.
Qed.

Lemma need_fields_bound fields :
  Forall (λ kv : string * Json, (need kv.2 ≤ 2 * String.length (stringify kv.2))%nat) fields →
  (list_sum (map (λ kv, S (need kv.2)) fields)
   ≤ 2 * String.length (fields_text fields) + 1)%nat.
Proof.
  induction 1 as [| [k v] fields Hfield _ IH]; [simpl; lia |].
  simpl in Hfield.
  destruct fields as [| kv fields].
  - unfold fields_text. cbn [map Str.join]. simpl (_.1). simpl (_.2).
    rewrite !length_append. simpl. lia.
  - rewrite fields_text_cons, !length_append.
    change (list_sum (map (λ kv, S (need kv.2)) ((k, v) :: kv :: fields)))
      with (S (need v) + list_sum (map (λ kv, S (need kv.2)) (kv :: fields)))%nat.
    simpl (String.length ","). lia.
Qed.

Lemma need_bound v : (need v ≤ 2 * String.length (stringify v))%nat.
Proof.
  revert v. apply Json_induction.
  - simpl. lia.
  - intros b. pose proof (stringify_nonempty (JBool b)). simpl need. lia.
  - intros n. pose proof (stringify_nonempty (JNum n)). simpl need. lia.
  - intros s. pose proof (stringify_nonempty (JStr s)). simpl need. lia.
  - intros items IH. pose proof (need_items_bound items IH) as Hsum.
    change (stringify (JArr items)) with ("[" +:+ items_text items +:+ "]").
    rewrite !length_append. simpl need. simpl (String.length "["). simpl (String.length "]").
    lia.
  - intros fields IH. pose proof (need_fields_bound fields IH) as Hsum.
    change (stringify (JObj fields)) with ("{" +:+ fields_text fields +:+ "}").
    rewrite !length_append. simpl need. simpl (String.length "{"). simpl (String.length "}").
    lia.
Qed.

Lemma append_nil_r a : a +:+ "" = a.
Proof. induction a as [| c a IH]; [reflexivity |]. by rewrite append_cons, IH. Qed.

(** [JSON.parse(JSON.stringify(v))] is [v]. *)
Lemma parse_stringify v : parse (stringify v) = Some v.
Proof.
  unfold parse.
  destruct (parse_stringify_fuel (2 + 2 * String.length (stringify v))) as [Hvalue _].
  rewrite <- (append_nil_r (stringify v)) at 2.
  rewrite Hvalue; [reflexivity | | exact I].
  pose proof (need_bound v). lia.
Qed.
End JSONFacts.

(** ** axios and [refreshTokens], step by step *)

Lemma settle_ok {D} (status : Z) (data : D) :
  200 ≤ status < 300 → settle (Reply status data) = Ok data.
Proof.
  intros [Hlo Hhi]. unfold settle.
  apply Z.leb_le in Hlo. apply Z.ltb_lt in Hhi. by rewrite Hlo, Hhi.
Qed.

Lemma settle_401 {D} (data : D) :
  settle (Reply 401 data) = Throw (AxiosError (Some 401) "Request failed").
Proof. reflexivity. Qed.

Lemma settle_refused {D} (u : Upstream D) :
  refused u → ∃ e, settle u = Throw e.
Proof.
  destruct u as [status data | message]; simpl; [| eauto].
  intros Hno.
  destruct (200 <=? status) eqn:Hlo, (status <? 300) eqn:Hhi; simpl; eauto.
  exfalso. apply Hno. split; [by apply Z.leb_le | by apply Z.ltb_lt].
Qed.

Lemma refreshTokens_refused penv env refreshToken w :
  refused (refresh_reply penv env (trace w) refreshToken) →
  refreshTokens penv env refreshToken w
  = (Ok None, {| store := store w;
                 trace := trace w ++ [refresh_call penv refreshToken];
                 res := res w |}).
Proof.
  intros Hrefused.
  destruct (settle_refused _ Hrefused) as [e He].
  unfold refresh_reply in He.
  unfold refreshTokens, try_catch, bind, axios_post. simpl.
  by rewrite He.
Qed.

Lemma res_cookie_fits env c w :
  fits env c →
  res_cookie env c w
  = (Ok tt, {| store := store w; trace := trace w;
               res := {| statusCode := statusCode (res w);
                         set_cookies := set_cookies (res w) ++ [c];
                         sent := sent (res w) |} |}).
Proof. intros Hfits. unfold res_cookie. by rewrite Hfits. Qed.

Lemma res_cookie_throws env c w :
  date_in_range (now env + maxAge c) = false →
  res_cookie env c w = (Throw (TypeError "option expires is invalid"), w).
Proof. intros Hout. unfold res_cookie. by rewrite Hout. Qed.

Lemma refreshTokens_accepted penv env refreshToken w status data :
  refresh_reply penv env (trace w) refreshToken = Reply status data →
  200 ≤ status < 300 →
  renewal_fits penv env data →
  refreshTokens penv env refreshToken w
  = (Ok (Some {| tk_access_token := access_token data;
                 tk_refresh_token := refresh_token data |}),
     {| store := store w;
        trace := trace w ++ [refresh_call penv refreshToken];
        res := {| statusCode := statusCode (res w);
                  set_cookies := set_cookies (res w) ++ renewed penv data;
                  sent := sent (res w) |} |}).
Proof.
  intros Hreply Hok [Haccess Hrefresh]. unfold refresh_reply in Hreply.
  unfold refreshTokens, try_catch, bind, axios_post. simpl.
  rewrite Hreply, (settle_ok _ _ Hok).
  rewrite (res_cookie_fits _ _ _ Haccess), (res_cookie_fits _ _ _ Hrefresh). simpl.
  unfold renewed. by rewrite <- app_assoc.
Qed.

(** The refresh cookie cannot be written: the access cookie stays, and
    the [catch] returns [null]. *)
Lemma refreshTokens_cut_short penv env refreshToken w status data :
  refresh_reply penv env (trace w) refreshToken = Reply status data →
  200 ≤ status < 300 →
  fits env (access_cookie penv (access_token data)) →
  date_in_range (now env + maxAge (refresh_cookie penv data)) = false →
  refreshTokens penv env refreshToken w
  = (Ok None,
     {| store := store w;
        trace := trace w ++ [refresh_call penv refreshToken];
        res := {| statusCode := statusCode (res w);
                  set_cookies := set_cookies (res w)
                                 ++ [access_cookie penv (access_token data)];
                  sent := sent (res w) |} |}).
Proof.
  intros Hreply Hok Haccess Hrefresh. unfold refresh_reply in Hreply.
  unfold refreshTokens, try_catch, bind, axios_post. simpl.
  rewrite Hreply, (settle_ok _ _ Hok).
  by rewrite (res_cookie_fits _ _ _ Haccess), (res_cookie_throws _ _ _ Hrefresh).
Qed.

Lemma should_refresh_401 message refreshToken :
  should_refresh (AxiosError (Some 401) message) refreshToken = truthy refreshToken.
Proof. reflexivity. Qed.

Lemma proxy_refresh_refused_shape penv env req st token refreshToken d0 :
  truthy (cookies req !! "access_token") = Some token →
  truthy (cookies req !! "refresh_token") = Some refreshToken →
  backend env [] (forward penv req token) = Reply 401 d0 →
  refused (refresh_reply penv env [Axios (forward penv req token)] refreshToken) →
  run (proxy penv env req) st
  = (Ok tt, answered st [Axios (forward penv req token); refresh_call penv refreshToken]
              401 [] unauthorized).
Proof.
  intros Htoken Hrefresh Hfirst Hrefused.
  unfold run, proxy. cbv zeta. rewrite Htoken.
  unfold try_catch at 1. unfold bind at 1. unfold axios at 1. simpl.
  rewrite Hfirst. simpl. rewrite should_refresh_401, Hrefresh.
  unfold bind at 1.
  by rewrite refreshTokens_refused.
Qed.

Lemma validate_refresh_refused_shape penv env req st token refreshToken d0 :
  truthy (validate_token req) = Some token →
  truthy (validate_refreshToken req) = Some refreshToken →
  redis_reachable env [] = true →
  truthy (store_get (now env) st (cacheKey token)) = None →
  userinfo_reply penv env [RedisGet (cacheKey token)] token = Reply 401 d0 →
  refused (refresh_reply penv env [RedisGet (cacheKey token); userinfo_call penv token]
             refreshToken) →
  run (validate penv env req) st
  = (Ok tt, answered st [RedisGet (cacheKey token); userinfo_call penv token;
                         refresh_call penv refreshToken]
              401 [] not_authenticated).
Proof.
  intros Htoken Hrefresh Hup Hmiss Hfirst Hrefused.
  unfold run, validate. cbv zeta. rewrite Htoken.
  unfold bind at 1. unfold redis_get at 1. simpl. rewrite Hup, Hmiss.
  unfold userinfo_reply in Hfirst.
  unfold try_catch at 1. unfold bind at 1. unfold axios_get at 1. simpl.
  rewrite Hfirst. simpl. rewrite should_refresh_401, Hrefresh.
  unfold bind at 1.
  by rewrite refreshTokens_refused.
Qed.

(** ** C6: a failed refresh writes nothing *)

(** C6. When the provider refuses the refresh (a status outside 2xx) or the
    call gets no answer, [refreshTokens] returns [null] and the response
    object is as it was: no cookie directive is added, the status and the
    body are untouched, and so is the store; the refresh call is the only
    thing that happened. Both routes then answer 401 without any cookie
    directive, so the client is left with the cookies it had. *)
Theorem failed_refresh_returns_null_and_writes_no_cookie :
  (∀ penv env refreshToken w,
     refused (refresh_reply penv env (trace w) refreshToken) →
     refreshTokens penv env refreshToken w
     = (Ok None, {| store := store w;
                    trace := trace w ++ [refresh_call penv refreshToken];
                    res := res w |}))
  ∧ (∀ penv env req st token refreshToken d0,
       truthy (cookies req !! "access_token") = Some token →
       truthy (cookies req !! "refresh_token") = Some refreshToken →
       backend env [] (forward penv req token) = Reply 401 d0 →
       refused (refresh_reply penv env [Axios (forward penv req token)] refreshToken) →
       run (proxy penv env req) st
       = (Ok tt, answered st [Axios (forward penv req token); refresh_call penv refreshToken]
                   401 [] unauthorized))
  ∧ (∀ penv env req st token refreshToken d0,
       truthy (validate_token req) = Some token →
       truthy (validate_refreshToken req) = Some refreshToken →
       redis_reachable env [] = true →
       truthy (store_get (now env) st (cacheKey token)) = None →
       userinfo_reply penv env [RedisGet (cacheKey token)] token = Reply 401 d0 →
       refused (refresh_reply penv env [RedisGet (cacheKey token); userinfo_call penv token]
                  refreshToken) →
       run (validate penv env req) st
       = (Ok tt, answered st [RedisGet (cacheKey token); userinfo_call penv token;
                              refresh_call penv refreshToken]
                   401 [] not_authenticated)).
Proof.
  split; [| split].
  - intros. by apply refreshTokens_refused.
  - intros. by eapply proxy_refresh_refused_shape.
  - intros. by eapply validate_refresh_refused_shape.
Qed.

Lemma failed_refresh_returns_null_and_writes_no_cookie_witness :
  refreshTokens no_env Scenario.revoked "RT1" (start ∅)
  = (Ok None, {| store := ∅; trace := [refresh_call no_env "RT1"]; res := fresh_res |})
  ∧ run (proxy no_env Scenario.revoked Scenario.projects) ∅
    = (Ok tt, answered ∅ [Axios (forward no_env Scenario.projects "AT1");
                          refresh_call no_env "RT1"] 401 [] unauthorized)
  ∧ run (validate no_env Scenario.revoked Scenario.projects) ∅
    = (Ok tt, answered ∅ [RedisGet (cacheKey "AT1"); userinfo_call no_env "AT1";
                          refresh_call no_env "RT1"] 401 [] not_authenticated).
Proof.
  destruct failed_refresh_returns_null_and_writes_no_cookie as (Hnull & Hproxy & Hvalidate).
  split; [| split].
  - apply (Hnull no_env Scenario.revoked "RT1" (start ∅)). simpl. lia.
  - apply (Hproxy no_env Scenario.revoked Scenario.projects ∅ "AT1" "RT1" JNull);
      try reflexivity. simpl. lia.
  - apply (Hvalidate no_env Scenario.revoked Scenario.projects ∅ "AT1" "RT1" JNull);
      try reflexivity. simpl. lia.
Defined.

Lemma proxy_refresh_shape penv env req st token refreshToken d0 status data :
  truthy (cookies req !! "access_token") = Some token →
  truthy (cookies req !! "refresh_token") = Some refreshToken →
  backend env [] (forward penv req token) = Reply 401 d0 →
  refresh_reply penv env [Axios (forward penv req token)] refreshToken = Reply status data →
  200 ≤ status < 300 →
  renewal_fits penv env data →
  let calls := [Axios (forward penv req token); refresh_call penv refreshToken;
                Axios (forward penv req (access_token data))] in
  run (proxy penv env req) st =
    match settle (backend env [Axios (forward penv req token); refresh_call penv refreshToken]
                    (forward penv req (access_token data))) with
    | Ok retryResponse => (Ok tt, answered st calls 200 (renewed penv data) retryResponse)
    | Throw _ => (Ok tt, answered st calls 401 (renewed penv data) unauthorized)
    end.
Proof.
  intros Htoken Hrefresh Hfirst Hreply Hok Hfits calls.
  unfold run, proxy. cbv zeta. rewrite Htoken.
  unfold try_catch at 1. unfold bind at 1. unfold axios at 1. simpl.
  rewrite Hfirst. simpl. rewrite should_refresh_401, Hrefresh.
  unfold bind at 1.
  rewrite (refreshTokens_accepted _ _ _ _ status data);
    [| exact Hreply | exact Hok | exact Hfits].
  unfold try_catch, bind, axios. simpl.
  destruct (settle _); reflexivity.
Qed.

Lemma validate_refresh_shape penv env req st token refreshToken d0 status data :
  truthy (validate_token req) = Some token →
  truthy (validate_refreshToken req) = Some refreshToken →
  redis_reachable env [] = true →
  truthy (store_get (now env) st (cacheKey token)) = None →
  userinfo_reply penv env [RedisGet (cacheKey token)] token = Reply 401 d0 →
  refresh_reply penv env [RedisGet (cacheKey token); userinfo_call penv token] refreshToken
    = Reply status data →
  200 ≤ status < 300 →
  renewal_fits penv env data →
  let calls := [RedisGet (cacheKey token); userinfo_call penv token;
                refresh_call penv refreshToken;
                userinfo_call penv (access_token data)] in
  let put user :=
    RedisSet (cacheKey (access_token data)) (JSON.stringify (authenticated user)) 300 in
  run (validate penv env req) st =
    match settle (userinfo_reply penv env
                    [RedisGet (cacheKey token); userinfo_call penv token;
                     refresh_call penv refreshToken] (access_token data)) with
    | Ok user =>
        if redis_reachable env calls then
          (Ok tt, answered (store_set (now env) st (cacheKey (access_token data))
                              (JSON.stringify (authenticated user)) 300)
                    (calls ++ [put user]) 200 (renewed penv data) (authenticated user))
        else
          (Ok tt, answered st (calls ++ [put user]) 401 (renewed penv data) not_authenticated)
    | Throw _ => (Ok tt, answered st calls 401 (renewed penv data) not_authenticated)
    end.
Proof.
  intros Htoken Hrefresh Hup Hmiss Hfirst Hreply Hok Hfits calls put.
  unfold run, validate. cbv zeta. rewrite Htoken.
  unfold bind at 1. unfold redis_get at 1. simpl. rewrite Hup, Hmiss.
  unfold userinfo_reply in Hfirst.
  unfold try_catch at 1. unfold bind at 1. unfold axios_get at 1. simpl.
  rewrite Hfirst. simpl. rewrite should_refresh_401, Hrefresh.
  unfold bind at 1.
  rewrite (refreshTokens_accepted _ _ _ _ status data);
    [| exact Hreply | exact Hok | exact Hfits].
  unfold try_catch, bind, axios_get, userinfo_reply. simpl.
  destruct (settle _) as [user | e]; [| reflexivity].
  subst calls put. unfold redis_set, userinfo_call. simpl.
  destruct (redis_reachable env (_ :: _)); reflexivity.
Qed.

(** ** C1: one refresh, one retry *)



Lemma proxy_cut_short_shape penv env req st token refreshToken d0 status data :
  truthy (cookies req !! "access_token") = Some token →
  truthy (cookies req !! "refresh_token") = Some refreshToken →
  backend env [] (forward penv req token) = Reply 401 d0 →
  refresh_reply penv env [Axios (forward penv req token)] refreshToken = Reply status data →
  200 ≤ status < 300 →
  fits env (access_cookie penv (access_token data)) →
  date_in_range (now env + maxAge (refresh_cookie penv data)) = false →
  run (proxy penv env req) st
  = (Ok tt, answered st [Axios (forward penv req token); refresh_call penv refreshToken]
              401 [access_cookie penv (access_token data)] unauthorized).
Proof.
  intros Htoken Hrefresh Hfirst Hreply Hok Haccess Hout.
  unfold run, proxy. cbv zeta. rewrite Htoken.
  unfold try_catch at 1. unfold bind at 1. unfold axios at 1. simpl.
  rewrite Hfirst. simpl. rewrite should_refresh_401, Hrefresh.
  unfold bind at 1.
  by rewrite (refreshTokens_cut_short _ _ _ _ status data).
Qed.

Lemma validate_cut_short_shape penv env req st token refreshToken d0 status data :
  truthy (validate_token req) = Some token →
  truthy (validate_refreshToken req) = Some refreshToken →
  redis_reachable env [] = true →
  truthy (store_get (now env) st (cacheKey token)) = None →
  userinfo_reply penv env [RedisGet (cacheKey token)] token = Reply 401 d0 →
  refresh_reply penv env [RedisGet (cacheKey token); userinfo_call penv token] refreshToken
    = Reply status data →
  200 ≤ status < 300 →
  fits env (access_cookie penv (access_token data)) →
  date_in_range (now env + maxAge (refresh_cookie penv data)) = false →
  run (validate penv env req) st
  = (Ok tt, answered st [RedisGet (cacheKey token); userinfo_call penv token;
                         refresh_call penv refreshToken]
              401 [access_cookie penv (access_token data)] not_authenticated).
Proof.
  intros Htoken Hrefresh Hup Hmiss Hfirst Hreply Hok Haccess Hout.
  unfold run, validate. cbv zeta. rewrite Htoken.
  unfold bind at 1. unfold redis_get at 1. simpl. rewrite Hup, Hmiss.
  unfold userinfo_reply in Hfirst.
  unfold try_catch at 1. unfold bind at 1. unfold axios_get at 1. simpl.
  rewrite Hfirst. simpl. rewrite should_refresh_401, Hrefresh.
  unfold bind at 1.
  by rewrite (refreshTokens_cut_short _ _ _ _ status data).
Qed.


(** ** The validation route, path by path *)

Lemma validate_hit_shape penv env req st token cached :
  truthy (validate_token req) = Some token →
  redis_reachable env [] = true →
  truthy (store_get (now env) st (cacheKey token)) = Some cached →
  run (validate penv env req) st =
    match JSON.parse cached with
    | Some payload => (Ok tt, answered st [RedisGet (cacheKey token)] 200 [] payload)
    | None => (Throw (SyntaxError "Unexpected token in JSON"),
               {| store := st; trace := [RedisGet (cacheKey token)]; res := fresh_res |})
    end.
Proof.
  intros Htoken Hup Hhit.
  unfold run, validate. cbv zeta. rewrite Htoken.
  unfold bind at 1. unfold redis_get at 1. simpl. rewrite Hup, Hhit.
  unfold bind, json_parse. destruct (JSON.parse cached); reflexivity.
Qed.

Lemma validate_down_shape penv env req st token :
  truthy (validate_token req) = Some token →
  redis_reachable env [] = false →
  run (validate penv env req) st =
    (Throw unreachable,
     {| store := st; trace := [RedisGet (cacheKey token)]; res := fresh_res |}).
Proof.
  intros Htoken Hdown.
  unfold run, validate. cbv zeta. rewrite Htoken.
  unfold bind at 1. unfold redis_get at 1. simpl. by rewrite Hdown.
Qed.

Lemma validate_miss_shape penv env req st token status user :
  truthy (validate_token req) = Some token →
  redis_reachable env [] = true →
  truthy (store_get (now env) st (cacheKey token)) = None →
  userinfo_reply penv env [RedisGet (cacheKey token)] token = Reply status user →
  200 ≤ status < 300 →
  let calls := [RedisGet (cacheKey token); userinfo_call penv token;
                RedisSet (cacheKey token) (JSON.stringify (authenticated user)) 300] in
  run (validate penv env req) st =
    if redis_reachable env [RedisGet (cacheKey token); userinfo_call penv token] then
      (Ok tt, answered (store_set (now env) st (cacheKey token)
                          (JSON.stringify (authenticated user)) 300)
                calls 200 [] (authenticated user))
    else (Ok tt, answered st calls 401 [] not_authenticated).
Proof.
  intros Htoken Hup Hmiss Hreply Hok calls.
  unfold run, validate. cbv zeta. rewrite Htoken.
  unfold bind at 1. unfold redis_get at 1. simpl. rewrite Hup, Hmiss.
  unfold userinfo_reply in Hreply.
  unfold try_catch at 1. unfold bind at 1. unfold axios_get at 1. simpl.
  rewrite Hreply, (settle_ok _ _ Hok).
  subst calls. unfold bind, redis_set, userinfo_call. simpl.
  destruct (redis_reachable env (_ :: _)); reflexivity.
Qed.

(** ** The store *)

Lemma cacheKey_inj token1 token2 : cacheKey token1 = cacheKey token2 → token1 = token2.
Proof. unfold cacheKey. simpl. intros Heq. by simplify_eq. Qed.

Lemma store_get_set_ne t t' (st : gmap string (string * Z)) key key' v seconds :
  key ≠ key' → store_get t' (store_set t st key v seconds) key' = store_get t' st key'.
Proof. intros Hne. unfold store_get, store_set. by rewrite lookup_insert_ne. Qed.

Lemma store_get_set_live t t' (st : gmap string (string * Z)) key v seconds :
  t' < t + seconds * 1000 → store_get t' (store_set t st key v seconds) key = Some v.
Proof.
  intros Hlive. unfold store_get, store_set. rewrite lookup_insert_eq.
  apply Z.ltb_lt in Hlive. by rewrite Hlive.
Qed.

Lemma store_get_set_expired t t' (st : gmap string (string * Z)) key v seconds :
  t + seconds * 1000 ≤ t' → store_get t' (store_set t st key v seconds) key = None.
Proof.
  intros Hdead. unfold store_get, store_set. rewrite lookup_insert_eq.
  apply Z.ltb_ge in Hdead. by rewrite Hdead.
Qed.

Lemma stringify_authenticated user :
  truthy (Some (JSON.stringify (authenticated user)))
  = Some (JSON.stringify (authenticated user)).
Proof. reflexivity. Qed.

(** ** C10: a cached identity is served without asking the provider *)

(** C10. When Redis holds a live entry for the request's access token, the
    validation route answers 200 with the parsed entry and its only call is
    the Redis lookup: the provider is not asked, whatever it would say.
    Hence an identity cached by one request is served again to any request
    with the same token that arrives less than 300 seconds later, also when
    the provider has withdrawn the token in between; from 300 seconds on the
    entry is gone. *)
Theorem cached_identity_is_served_without_the_provider :
  (∀ penv env req st token cached payload,
     truthy (validate_token req) = Some token →
     redis_reachable env [] = true →
     truthy (store_get (now env) st (cacheKey token)) = Some cached →
     JSON.parse cached = Some payload →
     run (validate penv env req) st
     = (Ok tt, answered st [RedisGet (cacheKey token)] 200 [] payload))
  ∧ (∀ penv env env' req st token status user,
       truthy (validate_token req) = Some token →
       redis_reachable env [] = true →
       redis_reachable env [RedisGet (cacheKey token); userinfo_call penv token] = true →
       truthy (store_get (now env) st (cacheKey token)) = None →
       userinfo_reply penv env [RedisGet (cacheKey token)] token = Reply status user →
       200 ≤ status < 300 →
       redis_reachable env' [] = true →
       now env' < now env + 300 * 1000 →
       let st' := store (run (validate penv env req) st).2 in
       run (validate penv env' req) st'
       = (Ok tt, answered st' [RedisGet (cacheKey token)] 200 [] (authenticated user)))
  ∧ (∀ t t' st token v, t + 300 * 1000 ≤ t' →
       store_get t' (store_set t st (cacheKey token) v 300) (cacheKey token) = None).
Proof.
  repeat split.
  - intros penv env req st token cached payload Htoken Hup Hhit Hparse.
    rewrite (validate_hit_shape penv env req st token cached Htoken Hup Hhit).
    by rewrite Hparse.
  - intros penv env env' req st token status user
      Htoken Hup Hup2 Hmiss Hreply Hok Hup' Hsoon st'.
    subst st'.
    rewrite (validate_miss_shape penv env req st token status user Htoken Hup Hmiss Hreply Hok).
    rewrite Hup2. simpl.
    rewrite (validate_hit_shape penv env' req _ token
               (JSON.stringify (authenticated user)) Htoken Hup').
    + by rewrite JSONFacts.parse_stringify.
    + rewrite store_get_set_live by exact Hsoon. apply stringify_authenticated.
  - intros. by apply store_get_set_expired.
Qed.

Lemma cached_identity_is_served_without_the_provider_witness :
  let st' := store (run (validate no_env (Scenario.cache_up 1000) Scenario.projects) ∅).2 in
  userinfo_reply no_env (Scenario.withdrawn 200000) [RedisGet (cacheKey "AT1")] "AT1"
  = Reply 401 JNull
  ∧ run (validate no_env (Scenario.withdrawn 200000) Scenario.projects) st'
    = (Ok tt, answered st' [RedisGet (cacheKey "AT1")] 200 []
                (authenticated (JObj [("sub", JStr "u1")]))).
Proof.
  destruct cached_identity_is_served_without_the_provider as (_ & Hlater & _).
  split; [reflexivity |].
  apply (Hlater no_env (Scenario.cache_up 1000) (Scenario.withdrawn 200000)
           Scenario.projects ∅ "AT1" 200 (JObj [("sub", JStr "u1")]));
    try reflexivity; simpl; lia.
Defined.

(** ** C2: Redis out of reach *)

(** C2. Evaluation of the validation route with Redis out of reach, for a
    request whose access token the provider accepts. With Redis in service
    the answer is 200 and the identity. When the lookup is rejected the
    handler itself is rejected with the Redis error, before any answer is
    written and before the provider is asked; when the lookup works and
    the write is rejected, the answer is 401 [{isAuthenticated: false}]
    although the provider has just accepted the token. The lookup is
    awaited outside every [try], the write inside the [try] whose [catch]
    answers 401. *)
Theorem redis_out_of_reach_changes_the_answer :
  run (validate no_env (Scenario.cache_up 1000) Scenario.projects) ∅
  = (Ok tt,
     answered (store_set 1000 ∅ (cacheKey "AT1")
                 (JSON.stringify (authenticated (JObj [("sub", JStr "u1")]))) 300)
       [RedisGet (cacheKey "AT1"); userinfo_call no_env "AT1";
        RedisSet (cacheKey "AT1")
          (JSON.stringify (authenticated (JObj [("sub", JStr "u1")]))) 300]
       200 [] (authenticated (JObj [("sub", JStr "u1")])))
  ∧ run (validate no_env Scenario.cache_down Scenario.projects) ∅
    = (Throw unreachable,
       {| store := ∅; trace := [RedisGet (cacheKey "AT1")]; res := fresh_res |})
  ∧ run (validate no_env Scenario.cache_lost Scenario.projects) ∅
    = (Ok tt,
       answered ∅
         [RedisGet (cacheKey "AT1"); userinfo_call no_env "AT1";
          RedisSet (cacheKey "AT1")
            (JSON.stringify (authenticated (JObj [("sub", JStr "u1")]))) 300]
         401 [] not_authenticated).
Proof.
  split; [| split].
  - by rewrite (validate_miss_shape no_env (Scenario.cache_up 1000) Scenario.projects ∅
                  "AT1" 200 (JObj [("sub", JStr "u1")])).
  - by apply validate_down_shape.
  - by rewrite (validate_miss_shape no_env Scenario.cache_lost Scenario.projects ∅
                  "AT1" 200 (JObj [("sub", JStr "u1")])).
Qed.

(** ** C4 and C5: what the proxy answers when it gives up *)

Lemma proxy_no_refresh_shape penv env req st token d0 :
  truthy (cookies req !! "access_token") = Some token →
  truthy (cookies req !! "refresh_token") = None →
  backend env [] (forward penv req token) = Reply 401 d0 →
  run (proxy penv env req) st
  = (Ok tt, answered st [Axios (forward penv req token)] 401 [] api_error).
Proof.
  intros Htoken Hnone Hfirst.
  unfold run, proxy. cbv zeta. rewrite Htoken.
  unfold try_catch at 1. unfold bind at 1. unfold axios at 1. simpl.
  rewrite Hfirst. simpl. by rewrite should_refresh_401, Hnone.
Qed.

(** C4, as the code has it. When the refresh succeeds (the provider
    accepts the refresh token and the two cookies of its token response are
    written) and the retried backend call fails, with any status outside
    2xx or with no answer at all, the proxy answers 401
    [{error: 'Unauthorized'}], with the renewed cookies attached: the status
    of the second failure is not passed on. *)
Theorem failed_retry_is_answered_401 :
  ∀ penv env req st token refreshToken d0 status data,
    truthy (cookies req !! "access_token") = Some token →
    truthy (cookies req !! "refresh_token") = Some refreshToken →
    backend env [] (forward penv req token) = Reply 401 d0 →
    refresh_reply penv env [Axios (forward penv req token)] refreshToken
      = Reply status data →
    200 ≤ status < 300 →
    renewal_fits penv env data →
    refused (backend env [Axios (forward penv req token); refresh_call penv refreshToken]
               (forward penv req (access_token data))) →
    run (proxy penv env req) st
    = (Ok tt,
       answered st
         [Axios (forward penv req token); refresh_call penv refreshToken;
          Axios (forward penv req (access_token data))]
         401 (renewed penv data) unauthorized).
Proof.
  intros penv env req st token refreshToken d0 status data
    Htoken Hrefresh Hfirst Hreply Hok Hfits Hretry.
  rewrite (proxy_refresh_shape penv env req st token refreshToken d0 status data
             Htoken Hrefresh Hfirst Hreply Hok Hfits).
  destruct (settle_refused _ Hretry) as [e He]. by rewrite He.
Qed.

Lemma failed_retry_is_answered_401_witness :
  run (proxy no_env Scenario.overloaded Scenario.projects) ∅
  = (Ok tt,
     answered ∅
       [Axios (forward no_env Scenario.projects "AT1"); refresh_call no_env "RT1";
        Axios (forward no_env Scenario.projects "AT2")]
       401 (renewed no_env Scenario.fresh_tokens) unauthorized).
Proof.
  apply (failed_retry_is_answered_401 no_env Scenario.overloaded Scenario.projects ∅
           "AT1" "RT1" JNull 200 Scenario.fresh_tokens);
    [reflexivity | reflexivity | reflexivity | reflexivity | lia | by split | simpl; lia].
Defined.

(** C4, as the claim states it, fails: the backend answers the retry with
    503, and the proxy answers 401, not 503. *)
Lemma retry_answered_503_is_not_passed_on :
  backend Scenario.overloaded
    [Axios (forward no_env Scenario.projects "AT1"); refresh_call no_env "RT1"]
    (forward no_env Scenario.projects "AT2") = Reply 503 JNull
  ∧ statusCode (res (run (proxy no_env Scenario.overloaded Scenario.projects) ∅).2) = 401
  ∧ statusCode (res (run (proxy no_env Scenario.overloaded Scenario.projects) ∅).2) ≠ 503.
Proof. repeat split. discriminate. Qed.

(** C5, as the code has it. When the backend answers 401 and the request
    has no refresh token, the proxy makes no refresh call and answers with
    the status of the backend, 401, and the body [{error: 'API error'}] of
    its general error branch. *)
Theorem backend_401_without_refresh_token_is_an_api_error :
  ∀ penv env req st token d0,
    truthy (cookies req !! "access_token") = Some token →
    truthy (cookies req !! "refresh_token") = None →
    backend env [] (forward penv req token) = Reply 401 d0 →
    run (proxy penv env req) st
    = (Ok tt, answered st [Axios (forward penv req token)] 401 [] api_error)
    ∧ count is_refresh (trace (run (proxy penv env req) st).2) = 0%nat.
Proof.
  intros penv env req st token d0 Htoken Hnone Hfirst.
  rewrite (proxy_no_refresh_shape penv env req st token d0 Htoken Hnone Hfirst).
  split; reflexivity.
Qed.

Lemma backend_401_without_refresh_token_is_an_api_error_witness :
  run (proxy no_env Scenario.expired Scenario.projects_without_refresh) ∅
  = (Ok tt,
     answered ∅ [Axios (forward no_env Scenario.projects_without_refresh "AT1")]
       401 [] api_error)
  ∧ count is_refresh
      (trace (run (proxy no_env Scenario.expired Scenario.projects_without_refresh) ∅).2)
    = 0%nat.
Proof.
  apply (backend_401_without_refresh_token_is_an_api_error no_env Scenario.expired
           Scenario.projects_without_refresh ∅ "AT1" JNull); reflexivity.
Defined.

(** C5, as the claim states it, fails: the answer is not the
    [{error: 'Unauthorized'}] of the other unauthenticated branches. *)
Lemma backend_401_without_refresh_token_is_not_unauthorized :
  sent (res (run (proxy no_env Scenario.expired Scenario.projects_without_refresh) ∅).2)
  ≠ SentJson unauthorized
  ∧ sent (res (run (proxy no_env Scenario.expired Scenario.anonymous) ∅).2) = SentJson unauthorized.
Proof. split; [discriminate | reflexivity]. Qed.

(** ** C7: what the proxy sends to the backend *)

Lemma strip_prefix_app p s : Str.strip_prefix p (p +:+ s) = Some s.
Proof.
  induction p as [| c p IH]; simpl; [reflexivity |].
  by rewrite Ascii.eqb_refl.
Qed.

Lemma replace_first_unfold pat rep s :
  Str.replace_first pat rep s =
  match Str.strip_prefix pat s with
  | Some rest => rep +:+ rest
  | None =>
      match s with
      | EmptyString => EmptyString
      | String c s' => String c (Str.replace_first pat rep s')
      end
  end.
Proof. by destruct s. Qed.

Lemma replace_first_prefix p s : Str.replace_first p "" (p +:+ s) = s.
Proof. by rewrite replace_first_unfold, strip_prefix_app. Qed.

Lemma includes_app_r sub a b : Str.includes sub b = true → Str.includes sub (a +:+ b) = true.
Proof.
  intros Hb. induction a as [| c a IH]; simpl; [exact Hb |].
  destruct (Str.strip_prefix sub (String c (a +:+ b))); [reflexivity | exact IH].
Qed.

(** C7. Evaluation of the proxy on a request with a query string. Each
    attempt is one axios call with the method, the body and the bearer
    header of the claim. Its address is [API_BASE_URL] followed by what
    follows [/api/v1] in [req.originalUrl], which still holds the query
    string, and [req.query] is given as [params] on top of it: axios adds
    the serialized [params] after [&], so the address on the wire carries
    every query parameter twice. *)
Theorem proxied_query_parameters_are_sent_twice :
  ∀ penv req token tail,
    originalUrl req = "/api/v1" +:+ tail →
    Str.includes "?" tail = true →
    Str.take_until "#" (API_BASE_URL penv +:+ tail) = API_BASE_URL penv +:+ tail →
    Url.axios_serialize (query req) ≠ "" →
    ax_method (forward penv req token) = method req
    ∧ ax_data (forward penv req token) = body req
    ∧ ax_headers (forward penv req token)
      = [("Authorization", "Bearer " +:+ token); ("Content-Type", "application/json")]
    ∧ ax_url (forward penv req token) = API_BASE_URL penv +:+ tail
    ∧ wire_url (forward penv req token)
      = (API_BASE_URL penv +:+ tail) +:+ "&" +:+ Url.axios_serialize (query req).
Proof.
  intros penv req token tail Hurl Hquery Hfragment Hparams.
  assert (ax_url (forward penv req token) = API_BASE_URL penv +:+ tail) as Haddress.
  { unfold forward, apiPath. cbn [ax_url]. by rewrite Hurl, replace_first_prefix. }
  split; [reflexivity |]. split; [reflexivity |]. split; [reflexivity |].
  split; [exact Haddress |].
  unfold wire_url, Url.axios_buildURL. rewrite Haddress.
  unfold forward. cbn [ax_params].
  destruct (Url.axios_serialize (query req)) as [| c serialized]; [done |].
  rewrite Hfragment. by rewrite includes_app_r.
Qed.

Lemma proxied_query_parameters_are_sent_twice_witness :
  wire_url (forward no_env Scenario.projects "AT1")
  = "http://localhost:8080/api/v1/projects?limit=10&limit=10"
  ∧ Str.occurrences "limit=10" (originalUrl Scenario.projects) = 1%nat
  ∧ Str.occurrences "limit=10" (wire_url (forward no_env Scenario.projects "AT1")) = 2%nat.
Proof.
  destruct (proxied_query_parameters_are_sent_twice no_env Scenario.projects "AT1"
              "/projects?limit=10") as (_ & _ & _ & _ & Hwire);
    [reflexivity | reflexivity | reflexivity | discriminate |].
  rewrite Hwire. repeat split.
Defined.

(** ** C8: the login redirect *)

(** C8, as the code has it. [GET /auth/login] answers with a 302 redirect
    and makes no call. The address is the provider's authorization endpoint
    with four query parameters, in this order: [client_id], [redirect_uri],
    [response_type=code] and [scope]; their values are form-encoded, so the
    scope reads [openid+profile+email] and the reserved characters of the
    redirect URI are percent-encoded. With no environment variable set the
    address is the one written out below. *)
Theorem login_redirects_with_four_encoded_parameters :
  ∀ penv req st,
    run (login penv req) st
    = (Ok tt,
       {| store := st; trace := [];
          res := {| statusCode := 302; set_cookies := [];
                    sent := SentRedirect
                      (auth_endpoint penv +:+ "?"
                       +:+ Str.join "&"
                             ["client_id=" +:+ Url.form_encode (CLIENT_ID penv);
                              "redirect_uri=" +:+ Url.form_encode (REDIRECT_URI penv);
                              "response_type=code";
                              "scope=openid+profile+email"]) |} |})
    ∧ Url.searchParams (authUrl penv)
      = [("client_id", CLIENT_ID penv); ("redirect_uri", REDIRECT_URI penv);
         ("response_type", "code"); ("scope", "openid profile email")]
    ∧ sent (res (run (login no_env req) st).2)
      = SentRedirect "http://localhost:8081/realms/dumper/protocol/openid-connect/auth?client_id=nextjs-app&redirect_uri=http%3A%2F%2Flocalhost%3A4000%2Fauth%2Fcallback&response_type=code&scope=openid+profile+email".
Proof.
  intros penv req st. split; [| split]; reflexivity.
Qed.

(** C8, as the claim states it, fails: the address has four query
    parameters, not five, and neither the scope nor the redirect URI is in
    it verbatim. *)
Lemma login_redirect_has_no_five_verbatim_parameters :
  length (Url.searchParams (authUrl no_env)) = 4%nat
  ∧ length (Url.searchParams (authUrl no_env)) ≠ 5%nat
  ∧ Str.includes "openid profile email" (Url.URL_toString (authUrl no_env)) = false
  ∧ Str.includes (REDIRECT_URI no_env) (Url.URL_toString (authUrl no_env)) = false
  ∧ sent (res (run (login no_env Scenario.anonymous) ∅).2)
    = SentRedirect (Url.URL_toString (authUrl no_env)).
Proof. repeat split. discriminate. Qed.

(** * The routes in every environment *)

(** A walk through a handler: at each step the next answer of the outside
    world, or the next test of the handler, is split into its cases. *)
Ltac split_innermost :=
  match goal with
  | |- context [match ?x with _ => _ end] =>
      lazymatch x with
      | context [match _ with _ => _ end] => fail
      | _ => destruct x eqn:?
      end
  end.

Ltac walk_step :=
  first
    [ progress (cbv beta iota zeta)
    | progress (unfold try_catch, bind, ret, throw, axios, axios_get, axios_post,
                redis_get, redis_set, json_parse, res_status, res_json, res_cookie,
                res_redirect, with_res, log)
    | progress (cbn [fst snd store trace res statusCode set_cookies sent start app])
    | split_innermost ].

Ltac walk := repeat walk_step.

(** X1. The environment of the model settles every call, with an answer
    or with a failure; a call that never settles (no axios call of the
    handler sets a timeout) is outside it, and there the handler would wait
    without an answer. Whenever the calls settle, whatever the backend and
    the provider answer, for every request and store the proxy handler ends
    with a JSON answer and is not rejected.
    It makes at most two backend calls and at most one refresh call, never
    calls Redis or the userinfo endpoint and leaves the store as it was.
    The cookie directives it writes are none, or those of one token
    response: the access and the refresh cookie, or the access cookie alone
    when the refresh cookie could not be written. *)
Theorem proxy_answers_whenever_its_calls_settle :
  ∀ penv env req st,
    ∃ calls code directives payload,
      run (proxy penv env req) st = (Ok tt, answered st calls code directives payload)
      ∧ (count is_backend calls ≤ 2)%nat
      ∧ (count is_refresh calls ≤ 1)%nat
      ∧ count is_redis calls = 0%nat
      ∧ count is_userinfo calls = 0%nat
      ∧ token_cookies penv directives.
Proof.
  intros penv env req st.
  unfold run, proxy, refreshTokens. walk.
  all: simplify_eq.
  all: eexists _, _, _, _; split; [reflexivity |].
  all: simpl; repeat split; try lia.
  all: first [by left | right; eexists; by left | right; eexists; by right].
Qed.

(** X2. Whatever Redis and the provider answer (every awaited call is
    taken to settle), the validation handler makes at most two Redis calls
    (the lookup and one write), at most two userinfo calls and at most one
    refresh call, and never calls the backend; the cookie directives it
    writes are none, or those of one token response (the pair, or the access
    cookie alone when the refresh cookie could not be written). When it
    answers, the answer is JSON with status 200, or status 401 with
    [{isAuthenticated: false}]; when it is rejected, nothing was written to
    the response, the store is as it was and the Redis lookup was its only
    call. *)
Theorem validate_in_every_environment :
  ∀ penv env req st,
    let out := (run (validate penv env req) st).1 in
    let w := (run (validate penv env req) st).2 in
    (count is_userinfo (trace w) ≤ 2)%nat
    ∧ (count is_refresh (trace w) ≤ 1)%nat
    ∧ count is_backend (trace w) = 0%nat
    ∧ (count is_redis (trace w) ≤ 2)%nat
    ∧ token_cookies penv (set_cookies (res w))
    ∧ (out = Ok tt →
       ∃ payload, sent (res w) = SentJson payload
                  ∧ (statusCode (res w) = 200
                     ∨ statusCode (res w) = 401 ∧ payload = not_authenticated))
    ∧ (∀ e, out = Throw e →
       res w = fresh_res ∧ store w = st
       ∧ ∃ token, truthy (validate_token req) = Some token
                  ∧ trace w = [RedisGet (cacheKey token)]).
Proof.
  intros penv env req st.
  cut (∃ out w, run (validate penv env req) st = (out, w)
       ∧ (count is_userinfo (trace w) ≤ 2)%nat
       ∧ (count is_refresh (trace w) ≤ 1)%nat
       ∧ count is_backend (trace w) = 0%nat
       ∧ (count is_redis (trace w) ≤ 2)%nat
       ∧ token_cookies penv (set_cookies (res w))
       ∧ (out = Ok tt →
          ∃ payload, sent (res w) = SentJson payload
                     ∧ (statusCode (res w) = 200
                        ∨ statusCode (res w) = 401 ∧ payload = not_authenticated))
       ∧ (∀ e, out = Throw e →
          res w = fresh_res ∧ store w = st
          ∧ ∃ token, truthy (validate_token req) = Some token
                     ∧ trace w = [RedisGet (cacheKey token)])).
  { intros (out & w & -> & H). exact H. }
  unfold run, validate, refreshTokens. walk.
  all: simplify_eq.
  all: eexists _, _; split; [reflexivity |].
  all: simpl; repeat split; try lia; try discriminate.
  all: try first [by left | right; eexists; by left | right; eexists; by right].
  all: try (intros _; eexists; split; [reflexivity |]; first [by left | by right]).
  all: by eexists.
Qed.

Lemma should_refresh_inv error refreshToken s :
  should_refresh error refreshToken = Some s →
  error_response_status error = Some 401 ∧ truthy refreshToken = Some s.
Proof.
  unfold should_refresh. destruct (error_response_status error) as [status |]; [| done].
  destruct (status =? 401) eqn:Hstatus; [| done].
  apply Z.eqb_eq in Hstatus. by subst.
Qed.

Lemma settle_401_inv {D} (u : Upstream D) e :
  settle u = Throw e → error_response_status e = Some 401 → ∃ data, u = Reply 401 data.
Proof.
  destruct u as [status data | message]; simpl.
  - destruct ((200 <=? status) && (status <? 300)); [done |].
    intros [= <-]. simpl. intros [= ->]. by eexists.
  - by intros [= <-].
Qed.

(** X3. The validation handler can be rejected at the Redis lookup only,
    before anything is sent. When it is rejected, the request had an access
    token and either the lookup failed or it returned a non-empty entry (the
    rejection then comes from parsing the entry). A failed lookup always
    rejects it, with the error of Redis. A request without a token is not
    rejected, and neither is one whose lookup found nothing: from there on
    every failure is caught and answered. *)
Theorem validate_is_rejected_only_at_the_lookup :
  ∀ penv env req st,
    ((∃ e, (run (validate penv env req) st).1 = Throw e) →
     ∃ token,
       truthy (validate_token req) = Some token
       ∧ (redis_reachable env [] = false
          ∨ redis_reachable env [] = true
            ∧ ∃ cached, truthy (store_get (now env) st (cacheKey token)) = Some cached))
    ∧ (∀ token,
         truthy (validate_token req) = Some token →
         redis_reachable env [] = false →
         (run (validate penv env req) st).1 = Throw unreachable)
    ∧ (truthy (validate_token req) = None →
       ∀ e, (run (validate penv env req) st).1 ≠ Throw e)
    ∧ (∀ token,
         truthy (validate_token req) = Some token →
         redis_reachable env [] = true →
         truthy (store_get (now env) st (cacheKey token)) = None →
         ∀ e, (run (validate penv env req) st).1 ≠ Throw e).
Proof.
  intros penv env req st.
  assert ((∃ e, (run (validate penv env req) st).1 = Throw e) →
          ∃ token,
            truthy (validate_token req) = Some token
            ∧ (redis_reachable env [] = false
               ∨ redis_reachable env [] = true
                 ∧ ∃ cached, truthy (store_get (now env) st (cacheKey token)) = Some cached))
    as Honly.
  { intros [e He]. revert He.
    unfold run, validate, refreshTokens. walk.
    all: simpl; try discriminate.
    all: intros _; eexists; split; [reflexivity |]; eauto. }
  split; [exact Honly |]. split; [| split].
  - intros token Htoken Hdown.
    by rewrite (validate_down_shape penv env req st token Htoken Hdown).
  - intros Hno e He.
    destruct Honly as (token & Htoken & _); [by exists e |]. congruence.
  - intros token Htoken Hup Hmiss e He.
    destruct Honly as (token' & Htoken' & [Hdown | (_ & cached & Hhit)]); [by exists e | |].
    + congruence.
    + rewrite Htoken in Htoken'. injection Htoken' as <-. congruence.
Qed.

Lemma validate_is_rejected_only_at_the_lookup_witness :
  (run (validate no_env Scenario.cache_down Scenario.projects) ∅).1 = Throw unreachable
  ∧ ∀ e, (run (validate no_env (Scenario.cache_up 1000) Scenario.projects) ∅).1 ≠ Throw e.
Proof.
  destruct (validate_is_rejected_only_at_the_lookup no_env Scenario.cache_down
              Scenario.projects ∅) as (_ & Hdown & _).
  destruct (validate_is_rejected_only_at_the_lookup no_env (Scenario.cache_up 1000)
              Scenario.projects ∅) as (_ & _ & _ & Hmiss).
  split.
  - apply (Hdown "AT1"); reflexivity.
  - apply (Hmiss "AT1"); reflexivity.
Defined.

(** X4. No refresh without a 401. In every environment, when the trace of
    the proxy holds a refresh call, the request had an access token and a
    refresh token in its cookies and the backend answered the first attempt
    with 401; likewise for the validation handler, whose first userinfo call
    was answered 401. *)
Theorem refresh_only_follows_a_401 :
  ∀ penv env req st,
    ((1 ≤ count is_refresh (trace (run (proxy penv env req) st).2))%nat →
     ∃ token refreshToken d0,
       truthy (cookies req !! "access_token") = Some token
       ∧ truthy (cookies req !! "refresh_token") = Some refreshToken
       ∧ backend env [] (forward penv req token) = Reply 401 d0)
    ∧ ((1 ≤ count is_refresh (trace (run (validate penv env req) st).2))%nat →
       ∃ token refreshToken d0,
         truthy (validate_token req) = Some token
         ∧ truthy (validate_refreshToken req) = Some refreshToken
         ∧ userinfo_reply penv env [RedisGet (cacheKey token)] token = Reply 401 d0).
Proof.
  intros penv env req st. split.
  - unfold run, proxy, refreshTokens. walk.
    all: simplify_eq.
    all: simpl; try lia.
    all: intros _.
    all: match goal with
         | Hs : should_refresh _ _ = Some _, Ht : settle _ = Throw _ |- _ =>
             destruct (should_refresh_inv _ _ _ Hs) as [H401 Hrt];
             destruct (settle_401_inv _ _ Ht H401) as [d0 Hd0]
         end.
    all: by eexists _, _, _.
  - unfold run, validate, refreshTokens, userinfo_reply. walk.
    all: simplify_eq.
    all: simpl; try lia.
    all: intros _.
    all: match goal with
         | Hs : should_refresh _ _ = Some _, Ht : settle (provider_userinfo _ _ _ _) = Throw _ |- _ =>
             destruct (should_refresh_inv _ _ _ Hs) as [H401 Hrt];
             destruct (settle_401_inv _ _ Ht H401) as [d0 Hd0]
         end.
    all: by eexists _, _, _.
Qed.

Lemma refresh_only_follows_a_401_witness :
  ∃ token refreshToken d0,
    truthy (cookies Scenario.projects !! "access_token") = Some token
    ∧ truthy (cookies Scenario.projects !! "refresh_token") = Some refreshToken
    ∧ backend Scenario.expired [] (forward no_env Scenario.projects token) = Reply 401 d0.
Proof.
  apply (refresh_only_follows_a_401 no_env Scenario.expired Scenario.projects ∅).
  vm_compute. lia.
Defined.

(** * The routes, path by path *)

Lemma proxy_accepted_shape penv env req st token status data :
  truthy (cookies req !! "access_token") = Some token →
  backend env [] (forward penv req token) = Reply status data →
  200 ≤ status < 300 →
  run (proxy penv env req) st
  = (Ok tt, answered st [Axios (forward penv req token)] 200 [] data).
Proof.
  intros Htoken Hreply Hok.
  unfold run, proxy. cbv zeta. rewrite Htoken.
  unfold try_catch, bind, axios. simpl.
  by rewrite Hreply, (settle_ok _ _ Hok).
Qed.

(** X5. A valid access token costs one upstream call. When the backend
    accepts the first attempt, the proxy answers with the backend's body
    after that single call, with no refresh and no cookie directive; the
    status of the answer is 200 whatever 2xx status the backend gave. When
    the provider accepts the token on a cache miss, the validation handler
    answers 200 [{isAuthenticated: true, user}] after one userinfo call,
    with no refresh and no cookie directive, and has stored the answer
    under the token's key for 300 seconds. *)
Theorem accepted_token_costs_one_upstream_call :
  (∀ penv env req st token status data,
     truthy (cookies req !! "access_token") = Some token →
     backend env [] (forward penv req token) = Reply status data →
     200 ≤ status < 300 →
     run (proxy penv env req) st
     = (Ok tt, answered st [Axios (forward penv req token)] 200 [] data))
  ∧ (∀ penv env req st token status user,
       truthy (validate_token req) = Some token →
       redis_reachable env [] = true →
       redis_reachable env [RedisGet (cacheKey token); userinfo_call penv token] = true →
       truthy (store_get (now env) st (cacheKey token)) = None →
       userinfo_reply penv env [RedisGet (cacheKey token)] token = Reply status user →
       200 ≤ status < 300 →
       run (validate penv env req) st
       = (Ok tt,
          answered (store_set (now env) st (cacheKey token)
                      (JSON.stringify (authenticated user)) 300)
            [RedisGet (cacheKey token); userinfo_call penv token;
             RedisSet (cacheKey token) (JSON.stringify (authenticated user)) 300]
            200 [] (authenticated user))).
Proof.
  split.
  - intros. by eapply proxy_accepted_shape.
  - intros penv env req st token status user Htoken Hup Hup2 Hmiss Hreply Hok.
    rewrite (validate_miss_shape penv env req st token status user Htoken Hup Hmiss Hreply Hok).
    by rewrite Hup2.
Qed.

Lemma accepted_token_costs_one_upstream_call_witness :
  run (proxy no_env Cases.created Scenario.projects) ∅
  = (Ok tt, answered ∅ [Axios (forward no_env Scenario.projects "AT1")] 200 []
              Scenario.projects_body)
  ∧ statusCode (res (run (validate no_env (Scenario.cache_up 1000) Scenario.projects) ∅).2)
    = 200.
Proof.
  destruct accepted_token_costs_one_upstream_call as [Hproxy Hvalidate].
  split.
  - apply (Hproxy no_env Cases.created Scenario.projects ∅ "AT1" 201);
      [reflexivity | reflexivity | lia].
  - rewrite (Hvalidate no_env (Scenario.cache_up 1000) Scenario.projects ∅ "AT1" 200
               (JObj [("sub", JStr "u1")])); try reflexivity; lia.
Defined.

Lemma settle_rejected {D} (status : Z) (data : D) :
  ¬ (200 ≤ status < 300) →
  settle (Reply status data) = Throw (AxiosError (Some status) "Request failed").
Proof.
  intros Hno. unfold settle.
  destruct (200 <=? status) eqn:Hlo, (status <? 300) eqn:Hhi; simpl; try reflexivity.
  exfalso. apply Hno. split; [by apply Z.leb_le | by apply Z.ltb_lt].
Qed.

Lemma should_refresh_other status message refreshToken :
  status ≠ 401 →
  should_refresh (AxiosError (Some status) message) refreshToken = None.
Proof.
  intros Hne. unfold should_refresh. simpl.
  destruct (status =? 401) eqn:Heq; [| reflexivity].
  apply Z.eqb_eq in Heq. done.
Qed.

(** X6. A backend failure other than 401 is passed on and never triggers
    a refresh, with or without a refresh token. When the backend answers
    the first attempt with a status outside 2xx other than 401, the proxy
    answers with that status (500 if the status is 0) and
    [{error: 'API error'}]; when the backend gives no answer, it answers
    500. In both cases the trace holds the single backend call and no
    cookie directive is written; the body of the backend's error answer is
    not passed on. *)
Theorem other_backend_failures_are_passed_on_without_refresh :
  (∀ penv env req st token status data,
     truthy (cookies req !! "access_token") = Some token →
     backend env [] (forward penv req token) = Reply status data →
     ¬ (200 ≤ status < 300) → status ≠ 401 →
     run (proxy penv env req) st
     = (Ok tt, answered st [Axios (forward penv req token)]
                 (if status =? 0 then 500 else status) [] api_error))
  ∧ (∀ penv env req st token message,
       truthy (cookies req !! "access_token") = Some token →
       backend env [] (forward penv req token) = NoReply message →
       run (proxy penv env req) st
       = (Ok tt, answered st [Axios (forward penv req token)] 500 [] api_error)).
Proof.
  split.
  - intros penv env req st token status data Htoken Hreply Hno Hne.
    unfold run, proxy. cbv zeta. rewrite Htoken.
    unfold try_catch at 1. unfold bind at 1. unfold axios at 1. simpl.
    rewrite Hreply, (settle_rejected _ _ Hno). simpl.
    by rewrite (should_refresh_other _ _ _ Hne).
  - intros penv env req st token message Htoken Hreply.
    unfold run, proxy. cbv zeta. rewrite Htoken.
    unfold try_catch at 1. unfold bind at 1. unfold axios at 1. simpl.
    by rewrite Hreply.
Qed.

Lemma other_backend_failures_are_passed_on_without_refresh_witness :
  run (proxy no_env Cases.out_of_service Scenario.projects) ∅
  = (Ok tt, answered ∅ [Axios (forward no_env Scenario.projects "AT1")] 503 [] api_error)
  ∧ run (proxy no_env Cases.offline Scenario.projects) ∅
    = (Ok tt, answered ∅ [Axios (forward no_env Scenario.projects "AT1")] 500 [] api_error).
Proof.
  destruct other_backend_failures_are_passed_on_without_refresh as [Hstatus Hnone].
  split.
  - apply (Hstatus no_env Cases.out_of_service Scenario.projects ∅ "AT1" 503
             (JObj [("detail", JStr "maintenance")]));
      [reflexivity | reflexivity | lia | lia].
  - apply (Hnone no_env Cases.offline Scenario.projects ∅ "AT1" "ECONNREFUSED");
      reflexivity.
Defined.

(** X7. The validation handler answers 401 [{isAuthenticated: false}]
    without a refresh call in two cases on a cache miss: when the provider
    answers the userinfo call with a failure other than 401 or does not
    answer, even if the request has a refresh token; and when the provider
    answers 401 and the request has no refresh token. *)
Theorem validate_gives_up_without_refresh :
  ∀ penv env req st token,
    truthy (validate_token req) = Some token →
    redis_reachable env [] = true →
    truthy (store_get (now env) st (cacheKey token)) = None →
    (refused (userinfo_reply penv env [RedisGet (cacheKey token)] token)
     ∧ (∀ d0, userinfo_reply penv env [RedisGet (cacheKey token)] token ≠ Reply 401 d0)
     ∨ truthy (validate_refreshToken req) = None
       ∧ ∃ d0, userinfo_reply penv env [RedisGet (cacheKey token)] token = Reply 401 d0) →
    run (validate penv env req) st
    = (Ok tt, answered st [RedisGet (cacheKey token); userinfo_call penv token]
                401 [] not_authenticated).
Proof.
  intros penv env req st token Htoken Hup Hmiss Hcase.
  unfold run, validate. cbv zeta. rewrite Htoken.
  unfold bind at 1. unfold redis_get at 1. simpl. rewrite Hup, Hmiss.
  unfold try_catch at 1. unfold bind at 1. unfold axios_get at 1. simpl.
  unfold userinfo_reply in Hcase.
  destruct Hcase as [[Hrefused Hother] | [Hnone [d0 H401]]].
  - destruct (provider_userinfo env _ _ _) as [status data | message]; [| reflexivity].
    simpl in Hrefused. rewrite (settle_rejected _ _ Hrefused). simpl.
    rewrite should_refresh_other; [reflexivity |].
    intros ->. by apply (Hother data).
  - rewrite H401. simpl. by rewrite should_refresh_401, Hnone.
Qed.

Lemma validate_gives_up_without_refresh_witness :
  run (validate no_env Cases.offline Scenario.projects) ∅
  = (Ok tt, answered ∅ [RedisGet (cacheKey "AT1"); userinfo_call no_env "AT1"]
              401 [] not_authenticated)
  ∧ run (validate no_env Scenario.expired Scenario.projects_without_refresh) ∅
    = (Ok tt, answered ∅ [RedisGet (cacheKey "AT1"); userinfo_call no_env "AT1"]
                401 [] not_authenticated).
Proof.
  split.
  - apply (validate_gives_up_without_refresh no_env Cases.offline Scenario.projects ∅ "AT1");
      try reflexivity.
    left. split; [exact I | discriminate].
  - apply (validate_gives_up_without_refresh no_env Scenario.expired
             Scenario.projects_without_refresh ∅ "AT1"); try reflexivity.
    right. split; [reflexivity | by eexists].
Defined.

(** * The callback and the logout *)

(** X8. The callback refuses a code it cannot use: when [code] is missing
    from the query, is an array or an object, or is the empty string, the
    answer is 400 [{error: 'Invalid authorization code'}], no call is made
    and no cookie directive is written. *)
Theorem callback_refuses_an_unusable_code :
  ∀ penv env code st,
    code = QUndefined ∨ code = QStructured ∨ code = QString "" →
    run (callback penv env code) st = (Ok tt, answered st [] 400 [] invalid_code).
Proof.
  intros penv env code st [-> | [-> | ->]]; reflexivity.
Qed.

Lemma callback_refuses_an_unusable_code_witness :
  run (callback no_env Scenario.expired QStructured) ∅
  = (Ok tt, answered ∅ [] 400 [] invalid_code).
Proof.
  apply (callback_refuses_an_unusable_code no_env Scenario.expired QStructured ∅).
  right. by left.
Defined.

(** X9. When the provider accepts the code and the two cookies of its
    token response can be written (their expiry dates are valid dates), the
    callback has made one call, the POST of the form
    [grant_type=authorization_code], [client_id], [client_secret], [code],
    [redirect_uri] to the token endpoint, has written the access and the
    refresh cookie, the same two directives a refresh writes for that token
    response, and redirects with 302 to [APP_URL]. *)
Theorem callback_sets_the_cookies_and_redirects :
  ∀ penv env code st status data,
    code ≠ "" →
    exchange_reply penv env code = Reply status data →
    200 ≤ status < 300 →
    renewal_fits penv env data →
    run (callback penv env (QString code)) st
    = (Ok tt,
       {| store := st;
          trace := [exchange_call penv code];
          res := {| statusCode := 302; set_cookies := renewed penv data;
                    sent := SentRedirect (APP_URL penv) |} |})
    ∧ exchange_call penv code
      = AxiosPost (token_endpoint penv)
          (Str.join "&"
             ["grant_type=authorization_code";
              "client_id=" +:+ Url.form_encode (CLIENT_ID penv);
              "client_secret=" +:+ Url.form_encode (CLIENT_SECRET penv);
              "code=" +:+ Url.form_encode code;
              "redirect_uri=" +:+ Url.form_encode (REDIRECT_URI penv)])
          [("Content-Type", "application/x-www-form-urlencoded")].
Proof.
  intros penv env code st status data Hcode Hreply Hok [Haccess Hrefresh].
  split; [| reflexivity].
  unfold exchange_reply in Hreply.
  unfold run, callback, usable_code.
  destruct code as [| c code]; [done |]. cbn [truthy].
  unfold try_catch, bind, axios_post. simpl.
  rewrite Hreply, (settle_ok _ _ Hok).
  by rewrite (res_cookie_fits _ _ _ Haccess), (res_cookie_fits _ _ _ Hrefresh).
Qed.

Lemma callback_sets_the_cookies_and_redirects_witness :
  run (callback no_env Scenario.expired (QString "abc")) ∅
  = (Ok tt,
     {| store := ∅;
        trace := [exchange_call no_env "abc"];
        res := {| statusCode := 302; set_cookies := renewed no_env Scenario.fresh_tokens;
                  sent := SentRedirect "http://localhost:3000" |} |}).
Proof.
  apply (callback_sets_the_cookies_and_redirects no_env Scenario.expired "abc" ∅ 200
           Scenario.fresh_tokens); [discriminate | reflexivity | lia | by split].
Defined.

(** X10. When the provider refuses the code, or does not answer, the
    callback answers 500 [{error: 'Authentication failed'}] after its one
    call and writes no cookie directive. *)
Theorem callback_failure_is_a_500_without_cookies :
  ∀ penv env code st,
    code ≠ "" →
    refused (exchange_reply penv env code) →
    run (callback penv env (QString code)) st
    = (Ok tt, answered st [exchange_call penv code] 500 [] authentication_failed).
Proof.
  intros penv env code st Hcode Hrefused.
  destruct (settle_refused _ Hrefused) as [e He]. unfold exchange_reply in He.
  unfold run, callback, usable_code.
  destruct code as [| c code]; [done |]. cbn [truthy].
  unfold try_catch, bind, axios_post. simpl.
  by rewrite He.
Qed.

Lemma callback_failure_is_a_500_without_cookies_witness :
  run (callback no_env Scenario.revoked (QString "abc")) ∅
  = (Ok tt, answered ∅ [exchange_call no_env "abc"] 500 [] authentication_failed).
Proof.
  apply (callback_failure_is_a_500_without_cookies no_env Scenario.revoked "abc" ∅);
    [discriminate | simpl; lia].
Defined.

Lemma renewed_session penv data c : In c (renewed penv data) → session_cookie penv c.
Proof.
  intros [<- | [<- | []]]; unfold session_cookie; simpl; auto 10.
Qed.

Lemma token_cookies_session penv directives c :
  token_cookies penv directives → In c directives → session_cookie penv c.
Proof.
  intros [-> | [data [-> | ->]]]; [intros [] | | apply renewed_session].
  intros [<- | []]. apply (renewed_session penv data). by left.
Qed.

Lemma proxy_cookies penv env req st :
  token_cookies penv (set_cookies (res (run (proxy penv env req) st).2)).
Proof.
  cut (∃ out w, run (proxy penv env req) st = (out, w)
                ∧ token_cookies penv (set_cookies (res w))).
  { intros (out & w & -> & H). exact H. }
  unfold run, proxy, refreshTokens. walk.
  all: simplify_eq.
  all: eexists _, _; split; [reflexivity |].
  all: simpl; first [by left | right; eexists; by left | right; eexists; by right].
Qed.

Lemma validate_cookies penv env req st :
  token_cookies penv (set_cookies (res (run (validate penv env req) st).2)).
Proof.
  cut (∃ out w, run (validate penv env req) st = (out, w)
                ∧ token_cookies penv (set_cookies (res w))).
  { intros (out & w & -> & H). exact H. }
  unfold run, validate, refreshTokens. walk.
  all: simplify_eq.
  all: eexists _, _; split; [reflexivity |].
  all: simpl; first [by left | right; eexists; by left | right; eexists; by right].
Qed.

Lemma callback_cookies penv env code st :
  token_cookies penv (set_cookies (res (run (callback penv env code) st).2)).
Proof.
  cut (∃ out w, run (callback penv env code) st = (out, w)
                ∧ token_cookies penv (set_cookies (res w))).
  { intros (out & w & -> & H). exact H. }
  unfold run, callback. walk.
  all: simplify_eq.
  all: eexists _, _; split; [reflexivity |].
  all: simpl; first [by left | right; eexists; by left | right; eexists; by right].
Qed.

(** X11. Every cookie directive that the proxy, the validation handler or
    the callback writes, in any environment, is named [access_token] or
    [refresh_token], is [HttpOnly], has [SameSite=Lax] and the path [/], and
    is [Secure] exactly when [NODE_ENV] is [production]. *)
Theorem every_cookie_is_a_session_cookie :
  ∀ penv env req code st c,
    In c (set_cookies (res (run (proxy penv env req) st).2))
    ∨ In c (set_cookies (res (run (validate penv env req) st).2))
    ∨ In c (set_cookies (res (run (callback penv env code) st).2)) →
    session_cookie penv c.
Proof.
  intros penv env req code st c [Hin | [Hin | Hin]];
    eapply token_cookies_session; try exact Hin.
  - apply proxy_cookies.
  - apply validate_cookies.
  - apply callback_cookies.
Qed.

Lemma every_cookie_is_a_session_cookie_witness :
  session_cookie no_env (access_cookie no_env "AT2").
Proof.
  apply (every_cookie_is_a_session_cookie no_env Scenario.expired Scenario.projects
           QUndefined ∅).
  left. vm_compute. by left.
Defined.

(** X12. The logout clears the cookies a login or a refresh sets: the
    directives it writes bear the same two names, in the same order, with
    the same path and the same [SameSite] option as the cookie directives
    of any token response. It makes no call; it redirects with 302 to the
    provider's logout endpoint with [post_logout_redirect_uri], the
    form-encoded [APP_URL], and [client_id]. *)
Theorem logout_clears_what_login_sets :
  ∀ penv data,
    map cleared_name (cleared (logout penv)) = map name (renewed penv data)
    ∧ map cleared_path (cleared (logout penv)) = map path (renewed penv data)
    ∧ map cleared_sameSite (cleared (logout penv)) = map sameSite (renewed penv data)
    ∧ logout_status (logout penv) = 302
    ∧ logout_location (logout penv)
      = logout_endpoint penv +:+ "?"
        +:+ Str.join "&"
              ["post_logout_redirect_uri=" +:+ Url.form_encode (APP_URL penv);
               "client_id=" +:+ Url.form_encode (CLIENT_ID penv)].
Proof. intros penv data. repeat split. Qed.

(** * Reading the token from the raw header *)

Lemma strip_prefix_Some p s rest : Str.strip_prefix p s = Some rest → s = p +:+ rest.
Proof.
  revert s. induction p as [| c p IH]; intros s; simpl.
  - by intros [= ->].
  - destruct s as [| d s]; [done |].
    destruct (Ascii.eqb c d) eqn:Hcd; [| done].
    apply Ascii.eqb_eq in Hcd as ->. intros Hrest.
    by rewrite JSONFacts.append_cons, <- (IH s Hrest).
Qed.

Lemma take_until_split stop s :
  ∃ after, s = Str.take_until stop s +:+ after ∧ (after = "" ∨ ∃ r, after = String stop r).
Proof.
  induction s as [| c s (after & Heq & Hafter)]; simpl.
  - exists "". by split; [| left].
  - destruct (Ascii.eqb c stop) eqn:Hc.
    + apply Ascii.eqb_eq in Hc as ->. exists (String stop s). split; [done | right; by eexists].
    + exists after. split; [| exact Hafter].
      by rewrite JSONFacts.append_cons, <- Heq.
Qed.

Lemma includes_unfold sub s :
  Str.includes sub s =
  match Str.strip_prefix sub s with
  | Some _ => true
  | None => match s with EmptyString => false | String _ s' => Str.includes sub s' end
  end.
Proof. by destruct s. Qed.

Lemma includes_char_cons stop c s :
  Str.includes (String stop "") (String c s)
  = Ascii.eqb stop c || Str.includes (String stop "") s.
Proof.
  rewrite includes_unfold. simpl. by destruct (Ascii.eqb stop c).
Qed.

Lemma take_until_clean stop s :
  Str.includes (String stop "") (Str.take_until stop s) = false.
Proof.
  induction s as [| c s IH]; simpl; [reflexivity |].
  destruct (Ascii.eqb c stop) eqn:Hc; [reflexivity |].
  rewrite includes_char_cons, IH, Ascii.eqb_sym, Hc. reflexivity.
Qed.

Lemma take_until_app stop v after :
  Str.includes (String stop "") v = false →
  after = "" ∨ (∃ r, after = String stop r) →
  Str.take_until stop (v +:+ after) = v.
Proof.
  intros Hclean Hafter. induction v as [| c v IH].
  - destruct Hafter as [-> | [r ->]]; simpl; [reflexivity |].
    by rewrite Ascii.eqb_refl.
  - rewrite includes_char_cons in Hclean. apply orb_false_elim in Hclean as [Hc Hv].
    rewrite JSONFacts.append_cons. simpl. rewrite Ascii.eqb_sym, Hc. by rewrite IH.
Qed.

Lemma match_cookie_unfold name s :
  Str.match_cookie name s =
  match
    match Str.strip_prefix (name +:+ "=") s with
    | Some rest =>
        match Str.take_until ";" rest with
        | EmptyString => None
        | v => Some v
        end
    | None => None
    end
  with
  | Some v => Some v
  | None =>
      match s with
      | EmptyString => None
      | String _ s' => Str.match_cookie name s'
      end
  end.
Proof. by destruct s. Qed.

Lemma match_cookie_sound name s v :
  Str.match_cookie name s = Some v →
  v ≠ "" ∧ Str.includes ";" v = false
  ∧ ∃ before after,
      s = before +:+ (name +:+ "=") +:+ v +:+ after
      ∧ (after = "" ∨ ∃ r, after = String ";" r).
Proof.
  induction s as [| c s IH]; rewrite match_cookie_unfold.
  - destruct (Str.strip_prefix (name +:+ "=") "") as [rest |] eqn:Hhere; [| done].
    apply strip_prefix_Some in Hhere. by destruct name.
  - destruct (Str.strip_prefix (name +:+ "=") (String c s)) as [rest |] eqn:Hhere.
    + apply strip_prefix_Some in Hhere.
      destruct (take_until_split ";" rest) as (after & Hrest & Hafter).
      pose proof (take_until_clean ";" rest) as Hclean.
      destruct (Str.take_until ";" rest) as [| d w] eqn:Hv.
      * intros Hlater. destruct (IH Hlater) as (Hne & Hc & before & after' & Hs & Ha).
        split; [done |]. split; [done |].
        exists (String c before), after'. split; [| exact Ha].
        by rewrite JSONFacts.append_cons, <- Hs.
      * intros [= <-]. split; [done |]. split; [exact Hclean |].
        exists "", after. split; [| exact Hafter]. by rewrite Hhere, Hrest.
    + intros Hlater. destruct (IH Hlater) as (Hne & Hc & before & after' & Hs & Ha).
      split; [done |]. split; [done |].
      exists (String c before), after'. split; [| exact Ha].
      by rewrite JSONFacts.append_cons, <- Hs.
Qed.

(** X13. What the match of [/NAME=([^;]+)/] on the raw [Cookie] header
    returns is never empty, holds no [;], and stands in the header right
    after [NAME=], up to the end of the header or to the next [;]. Hence a
    token the validation handler takes from the header is always truthy. *)
Theorem header_match_is_a_cookie_value :
  ∀ name header v,
    Str.match_cookie name header = Some v →
    v ≠ "" ∧ Str.includes ";" v = false
    ∧ truthy (Some v) = Some v
    ∧ ∃ before after,
        header = before +:+ (name +:+ "=") +:+ v +:+ after
        ∧ (after = "" ∨ ∃ r, after = String ";" r).
Proof.
  intros name header v Hmatch.
  destruct (match_cookie_sound name header v Hmatch) as (Hne & Hclean & Hplace).
  repeat split; try done. by destruct v.
Qed.

Lemma header_match_is_a_cookie_value_witness :
  ∃ before after,
    "theme=dark; access_token=AT1; refresh_token=RT1"
    = before +:+ ("access_token" +:+ "=") +:+ "AT1" +:+ after
    ∧ (after = "" ∨ ∃ r, after = String ";" r).
Proof.
  apply (header_match_is_a_cookie_value "access_token"
           "theme=dark; access_token=AT1; refresh_token=RT1" "AT1").
  reflexivity.
Defined.

Lemma match_cookie_leading name v after :
  v ≠ "" → Str.includes ";" v = false →
  after = "" ∨ (∃ r, after = String ";" r) →
  Str.match_cookie name ((name +:+ "=") +:+ v +:+ after) = Some v.
Proof.
  intros Hne Hclean Hafter.
  rewrite match_cookie_unfold, strip_prefix_app, (take_until_app _ _ _ Hclean Hafter).
  by destruct v.
Qed.

Lemma match_cookie_anywhere name before c rest :
  c ≠ ";"%char →
  is_Some (Str.match_cookie name (before +:+ (name +:+ "=") +:+ String c rest)).
Proof.
  intros Hc. induction before as [| b before IH].
  - rewrite JSONFacts.append_nil, match_cookie_unfold, strip_prefix_app. simpl.
    apply Ascii.eqb_neq in Hc. rewrite Hc. by eexists.
  - rewrite JSONFacts.append_cons, match_cookie_unfold.
    destruct (match Str.strip_prefix _ _ with Some _ => _ | None => _ end); [by eexists |].
    exact IH.
Qed.

(** X14. The match on the raw header finds a cookie wherever [NAME=] is
    followed by a character other than [;]. A header that begins with
    [NAME=v], with [v] non-empty and free of [;], gives exactly [v]; and
    whatever stands before [NAME=], a cookie of another name that ends in
    [NAME] included, the match succeeds. *)
Theorem header_match_finds_the_cookie :
  ∀ name,
    (∀ v after,
       v ≠ "" → Str.includes ";" v = false →
       after = "" ∨ (∃ r, after = String ";" r) →
       Str.match_cookie name ((name +:+ "=") +:+ v +:+ after) = Some v)
    ∧ (∀ before c rest,
         c ≠ ";"%char →
         is_Some (Str.match_cookie name (before +:+ (name +:+ "=") +:+ String c rest))).
Proof.
  intros name. split.
  - intros. by apply match_cookie_leading.
  - intros. by apply match_cookie_anywhere.
Qed.

Lemma header_match_finds_the_cookie_witness :
  Str.match_cookie "access_token" "access_token=AT1; refresh_token=RT1" = Some "AT1"
  ∧ is_Some (Str.match_cookie "access_token" "my_access_token=other").
Proof.
  destruct (header_match_finds_the_cookie "access_token") as [Hleading Hanywhere].
  split.
  - apply (Hleading "AT1" "; refresh_token=RT1"); [discriminate | reflexivity |].
    right. by eexists.
  - apply (Hanywhere "my_" "o"%char "ther"). discriminate.
Defined.

Lemma validate_starts_with_the_lookup penv env req st token :
  truthy (validate_token req) = Some token →
  ∃ later, trace (run (validate penv env req) st).2 = RedisGet (cacheKey token) :: later.
Proof.
  intros Htoken.
  cut (∃ out w, run (validate penv env req) st = (out, w)
                ∧ ∃ later, trace w = RedisGet (cacheKey token) :: later).
  { intros (out & w & -> & H). exact H. }
  unfold run, validate, refreshTokens. rewrite Htoken. walk.
  all: simplify_eq.
  all: eexists _, _; split; [reflexivity |].
  all: simpl; by eexists.
Qed.

(** ** C3: no access token, no call *)






(** X15. The two routes do not read the access token alike. For a request
    whose parsed cookies hold no [access_token] while its raw [Cookie]
    header holds [access_token=] followed by a character other than [;]
    (after any text, so also inside the name of another cookie), the proxy
    answers 401 [{error: 'Unauthorized'}] without a call, while the
    validation handler takes a token from the header and goes on to the
    Redis lookup under that token's key. *)
Theorem only_validate_reads_the_raw_header :
  ∀ penv env req st before c rest,
    truthy (cookies req !! "access_token") = None →
    headers_cookie req = Some (before +:+ ("access_token" +:+ "=") +:+ String c rest) →
    c ≠ ";"%char →
    run (proxy penv env req) st = (Ok tt, answered st [] 401 [] unauthorized)
    ∧ ∃ token later,
        truthy (validate_token req) = Some token
        ∧ Str.match_cookie "access_token"
            (before +:+ ("access_token" +:+ "=") +:+ String c rest) = Some token
        ∧ trace (run (validate penv env req) st).2 = RedisGet (cacheKey token) :: later.
Proof.
  intros penv env req st before c rest Hparsed Hheader Hc. split.
  - unfold run, proxy. by rewrite Hparsed.
  - destruct (match_cookie_anywhere "access_token" before c rest Hc) as [token Hmatch].
    destruct (match_cookie_sound _ _ _ Hmatch) as (Hne & _).
    assert (truthy (validate_token req) = Some token) as Htoken.
    { unfold validate_token, js_or. rewrite Hparsed, Hheader. simpl.
      rewrite Hmatch. by destruct token. }
    destruct (validate_starts_with_the_lookup penv env req st token Htoken) as [later Hlater].
    by exists token, later.
Qed.

Lemma only_validate_reads_the_raw_header_witness :
  run (proxy no_env Scenario.expired Cases.foreign_cookie) ∅
  = (Ok tt, answered ∅ [] 401 [] unauthorized)
  ∧ ∃ token later,
      truthy (validate_token Cases.foreign_cookie) = Some token
      ∧ Str.match_cookie "access_token" ("my_" +:+ ("access_token" +:+ "=") +:+ "other")
        = Some token
      ∧ trace (run (validate no_env Scenario.expired Cases.foreign_cookie) ∅).2
        = RedisGet (cacheKey token) :: later.
Proof.
  apply (only_validate_reads_the_raw_header no_env Scenario.expired Cases.foreign_cookie ∅
           "my_" "o"%char "ther"); [reflexivity | reflexivity | discriminate].
Defined.

(** * The address the proxy forwards to *)

Lemma replace_first_absent pat rep s :
  Str.includes pat s = false → Str.replace_first pat rep s = s.
Proof.
  induction s as [| c s IH]; rewrite includes_unfold, replace_first_unfold;
    destruct (Str.strip_prefix pat _); try done.
  intros Hlater. by rewrite (IH Hlater).
Qed.

(** X16. The path the proxy forwards. Only the first [/api/v1] of
    [req.originalUrl] is removed: for an address [/api/v1] followed by a
    tail, the forwarded path is the tail, unchanged even where it holds
    [/api/v1] again. When the address does not hold [/api/v1] as written
    (the mount path matches whatever the case of the letters), nothing is
    removed and the whole address is appended to [API_BASE_URL]. For a
    request without query parameters the address on the wire is the one
    given to axios. *)
Theorem forwarded_path_drops_the_first_mount_path_only :
  ∀ penv req token,
    (∀ tail, originalUrl req = "/api/v1" +:+ tail →
       ax_url (forward penv req token) = API_BASE_URL penv +:+ tail)
    ∧ (Str.includes "/api/v1" (originalUrl req) = false →
       ax_url (forward penv req token) = API_BASE_URL penv +:+ originalUrl req)
    ∧ (query req = [] →
       wire_url (forward penv req token) = ax_url (forward penv req token)).
Proof.
  intros penv req token. unfold forward, apiPath, wire_url. cbn [ax_url ax_params].
  split; [| split].
  - intros tail ->. by rewrite replace_first_prefix.
  - intros Habsent. by rewrite replace_first_absent.
  - by intros ->.
Qed.

Lemma forwarded_path_drops_the_first_mount_path_only_witness :
  wire_url (forward no_env Cases.nested "AT1") = "http://localhost:8080/api/v1/api/v1/users"
  ∧ wire_url (forward no_env Cases.capitals "AT1") = "http://localhost:8080/api/v1/API/V1/users".
Proof.
  destruct (forwarded_path_drops_the_first_mount_path_only no_env Cases.nested "AT1")
    as (Hfirst & _ & Hwire).
  destruct (forwarded_path_drops_the_first_mount_path_only no_env Cases.capitals "AT1")
    as (_ & Hnone & Hwire').
  split.
  - rewrite Hwire by reflexivity. apply (Hfirst "/api/v1/users"). reflexivity.
  - rewrite Hwire' by reflexivity. apply Hnone. reflexivity.
Defined.

(** * One request after another *)

(** X17. After a refresh the identity is cached under the new access
    token. When the validation handler has refreshed, the two cookies of
    the token response could be written, and the retry and the write to
    Redis have succeeded, a later request that carries the new access
    token, less than 300 seconds later, is answered 200 with the same
    identity from the cache, with the Redis lookup as its only call; and the
    first request has left every lookup under the old token's key as it
    was, when the provider has issued a different token. *)
Theorem refreshed_identity_is_cached_under_the_new_token :
  ∀ penv env env' req req' st token refreshToken d0 status data status' user,
    truthy (validate_token req) = Some token →
    truthy (validate_refreshToken req) = Some refreshToken →
    redis_reachable env [] = true →
    truthy (store_get (now env) st (cacheKey token)) = None →
    userinfo_reply penv env [RedisGet (cacheKey token)] token = Reply 401 d0 →
    refresh_reply penv env [RedisGet (cacheKey token); userinfo_call penv token] refreshToken
      = Reply status data →
    200 ≤ status < 300 →
    renewal_fits penv env data →
    userinfo_reply penv env
      [RedisGet (cacheKey token); userinfo_call penv token; refresh_call penv refreshToken]
      (access_token data) = Reply status' user →
    200 ≤ status' < 300 →
    redis_reachable env
      [RedisGet (cacheKey token); userinfo_call penv token; refresh_call penv refreshToken;
       userinfo_call penv (access_token data)] = true →
    truthy (validate_token req') = Some (access_token data) →
    redis_reachable env' [] = true →
    now env' < now env + 300 * 1000 →
    let st' := store (run (validate penv env req) st).2 in
    run (validate penv env' req') st'
    = (Ok tt, answered st' [RedisGet (cacheKey (access_token data))] 200 []
                (authenticated user))
    ∧ (access_token data ≠ token →
       ∀ t, store_get t st' (cacheKey token) = store_get t st (cacheKey token)).
Proof.
  intros penv env env' req req' st token refreshToken d0 status data status' user
    Htoken Hrefresh Hup Hmiss Hfirst Hreply Hok Hfits Hretry Hok' Hup2 Htoken' Hup' Hsoon st'.
  subst st'.
  rewrite (validate_refresh_shape penv env req st token refreshToken d0 status data
             Htoken Hrefresh Hup Hmiss Hfirst Hreply Hok Hfits).
  rewrite Hretry, (settle_ok _ _ Hok'), Hup2. simpl. split.
  - rewrite (validate_hit_shape penv env' req' _ (access_token data)
               (JSON.stringify (authenticated user)) Htoken' Hup').
    + by rewrite JSONFacts.parse_stringify.
    + rewrite store_get_set_live by exact Hsoon. apply stringify_authenticated.
  - intros Hne t. apply store_get_set_ne. intros Hkeys. by apply Hne, cacheKey_inj.
Qed.

Lemma refreshed_identity_is_cached_under_the_new_token_witness :
  let st' := store (run (validate no_env Scenario.expired Scenario.projects) ∅).2 in
  run (validate no_env (Scenario.withdrawn 200000) Cases.renewed_request) st'
  = (Ok tt, answered st' [RedisGet (cacheKey "AT2")] 200 []
              (authenticated (JObj [("sub", JStr "u1")])))
  ∧ ("AT2" ≠ "AT1" →
     ∀ t, store_get t st' (cacheKey "AT1") = store_get t ∅ (cacheKey "AT1")).
Proof.
  apply (refreshed_identity_is_cached_under_the_new_token no_env Scenario.expired
           (Scenario.withdrawn 200000) Scenario.projects Cases.renewed_request ∅
           "AT1" "RT1" JNull 200 Scenario.fresh_tokens 200 (JObj [("sub", JStr "u1")]));
    try reflexivity; try (by split); simpl; lia.
Defined.

(** X18. A cached identity is dropped after 300 seconds. When a request
    has cached the identity and a request with the same token arrives 300
    seconds later or more, the validation handler asks the provider again:
    if the provider still accepts the token the answer is 200 with the
    identity the provider gives now, stored for another 300 seconds; if the
    provider answers 401 and the request has no refresh token, the answer is
    401 [{isAuthenticated: false}]. *)
Theorem expired_entry_sends_validate_back_to_the_provider :
  ∀ penv env env' req st token status user,
    truthy (validate_token req) = Some token →
    redis_reachable env [] = true →
    redis_reachable env [RedisGet (cacheKey token); userinfo_call penv token] = true →
    truthy (store_get (now env) st (cacheKey token)) = None →
    userinfo_reply penv env [RedisGet (cacheKey token)] token = Reply status user →
    200 ≤ status < 300 →
    redis_reachable env' [] = true →
    redis_reachable env' [RedisGet (cacheKey token); userinfo_call penv token] = true →
    now env + 300 * 1000 ≤ now env' →
    let st' := store (run (validate penv env req) st).2 in
    (∀ status' user',
       userinfo_reply penv env' [RedisGet (cacheKey token)] token = Reply status' user' →
       200 ≤ status' < 300 →
       run (validate penv env' req) st'
       = (Ok tt,
          answered (store_set (now env') st' (cacheKey token)
                      (JSON.stringify (authenticated user')) 300)
            [RedisGet (cacheKey token); userinfo_call penv token;
             RedisSet (cacheKey token) (JSON.stringify (authenticated user')) 300]
            200 [] (authenticated user')))
    ∧ (∀ d0,
         userinfo_reply penv env' [RedisGet (cacheKey token)] token = Reply 401 d0 →
         truthy (validate_refreshToken req) = None →
         run (validate penv env' req) st'
         = (Ok tt, answered st' [RedisGet (cacheKey token); userinfo_call penv token]
                     401 [] not_authenticated)).
Proof.
  intros penv env env' req st token status user
    Htoken Hup Hup2 Hmiss Hreply Hok Hup' Hup2' Hlate st'.
  assert (truthy (store_get (now env') st' (cacheKey token)) = None) as Hmiss'.
  { subst st'.
    rewrite (validate_miss_shape penv env req st token status user Htoken Hup Hmiss Hreply Hok).
    rewrite Hup2. simpl. by rewrite store_get_set_expired. }
  split.
  - intros status' user' Hreply' Hok'.
    rewrite (validate_miss_shape penv env' req st' token status' user'
               Htoken Hup' Hmiss' Hreply' Hok').
    by rewrite Hup2'.
  - intros d0 H401 Hnone.
    unfold run, validate. cbv zeta. rewrite Htoken.
    unfold bind at 1. unfold redis_get at 1. simpl. rewrite Hup', Hmiss'.
    unfold try_catch at 1. unfold bind at 1. unfold axios_get at 1. simpl.
    unfold userinfo_reply in H401. rewrite H401. simpl.
    by rewrite should_refresh_401, Hnone.
Qed.

Lemma expired_entry_sends_validate_back_to_the_provider_witness :
  let st' := store (run (validate no_env (Scenario.cache_up 1000)
                           Scenario.projects_without_refresh) ∅).2 in
  run (validate no_env (Scenario.withdrawn 301000) Scenario.projects_without_refresh) st'
  = (Ok tt, answered st' [RedisGet (cacheKey "AT1"); userinfo_call no_env "AT1"]
              401 [] not_authenticated).
Proof.
  intros st'.
  destruct (expired_entry_sends_validate_back_to_the_provider no_env
              (Scenario.cache_up 1000) (Scenario.withdrawn 301000)
              Scenario.projects_without_refresh ∅ "AT1" 200 (JObj [("sub", JStr "u1")]))
    as [_ Hwithdrawn];
    [reflexivity | reflexivity | reflexivity | reflexivity | reflexivity | lia
    | reflexivity | reflexivity | simpl; lia |].
  apply (Hwithdrawn JNull); reflexivity.
Defined.

(** * Refresh and retry, to the end *)

(** X19. When the first attempt is answered 401, the refresh succeeds
    (the provider accepts the refresh token and the two cookies of its
    token response can be written) and the retry succeeds too, the answer
    is 200 with what the retry returned, and the two renewed cookie
    directives go with it. The proxy answers with the backend's body; the
    validation handler answers [{isAuthenticated: true, user}] and, when
    Redis takes the write, has stored it under the new access token for 300
    seconds. *)
Theorem successful_retry_answers_200_with_renewed_cookies :
  (∀ penv env req st token refreshToken d0 status data status' retryResponse,
     truthy (cookies req !! "access_token") = Some token →
     truthy (cookies req !! "refresh_token") = Some refreshToken →
     backend env [] (forward penv req token) = Reply 401 d0 →
     refresh_reply penv env [Axios (forward penv req token)] refreshToken
       = Reply status data →
     200 ≤ status < 300 →
     renewal_fits penv env data →
     backend env [Axios (forward penv req token); refresh_call penv refreshToken]
       (forward penv req (access_token data)) = Reply status' retryResponse →
     200 ≤ status' < 300 →
     run (proxy penv env req) st
     = (Ok tt,
        answered st
          [Axios (forward penv req token); refresh_call penv refreshToken;
           Axios (forward penv req (access_token data))]
          200 (renewed penv data) retryResponse))
  ∧ (∀ penv env req st token refreshToken d0 status data status' user,
       truthy (validate_token req) = Some token →
       truthy (validate_refreshToken req) = Some refreshToken →
       redis_reachable env [] = true →
       truthy (store_get (now env) st (cacheKey token)) = None →
       userinfo_reply penv env [RedisGet (cacheKey token)] token = Reply 401 d0 →
       refresh_reply penv env [RedisGet (cacheKey token); userinfo_call penv token]
         refreshToken = Reply status data →
       200 ≤ status < 300 →
       renewal_fits penv env data →
       userinfo_reply penv env
         [RedisGet (cacheKey token); userinfo_call penv token;
          refresh_call penv refreshToken] (access_token data) = Reply status' user →
       200 ≤ status' < 300 →
       redis_reachable env
         [RedisGet (cacheKey token); userinfo_call penv token;
          refresh_call penv refreshToken; userinfo_call penv (access_token data)] = true →
       run (validate penv env req) st
       = (Ok tt,
          answered (store_set (now env) st (cacheKey (access_token data))
                      (JSON.stringify (authenticated user)) 300)
            [RedisGet (cacheKey token); userinfo_call penv token;
             refresh_call penv refreshToken; userinfo_call penv (access_token data);
             RedisSet (cacheKey (access_token data))
               (JSON.stringify (authenticated user)) 300]
            200 (renewed penv data) (authenticated user))).
Proof.
  split.
  - intros penv env req st token refreshToken d0 status data status' retryResponse
      Htoken Hrefresh Hfirst Hreply Hok Hfits Hretry Hok'.
    rewrite (proxy_refresh_shape penv env req st token refreshToken d0 status data
               Htoken Hrefresh Hfirst Hreply Hok Hfits).
    by rewrite Hretry, (settle_ok _ _ Hok').
  - intros penv env req st token refreshToken d0 status data status' user
      Htoken Hrefresh Hup Hmiss Hfirst Hreply Hok Hfits Hretry Hok' Hup2.
    rewrite (validate_refresh_shape penv env req st token refreshToken d0 status data
               Htoken Hrefresh Hup Hmiss Hfirst Hreply Hok Hfits).
    by rewrite Hretry, (settle_ok _ _ Hok'), Hup2.
Qed.

Lemma successful_retry_answers_200_with_renewed_cookies_witness :
  run (proxy no_env Scenario.expired Scenario.projects) ∅
  = (Ok tt,
     answered ∅
       [Axios (forward no_env Scenario.projects "AT1"); refresh_call no_env "RT1";
        Axios (forward no_env Scenario.projects "AT2")]
       200 (renewed no_env Scenario.fresh_tokens) Scenario.projects_body)
  ∧ statusCode (res (run (validate no_env Scenario.expired Scenario.projects) ∅).2) = 200.
Proof.
  destruct successful_retry_answers_200_with_renewed_cookies as [Hproxy Hvalidate].
  split.
  - apply (Hproxy no_env Scenario.expired Scenario.projects ∅ "AT1" "RT1" JNull 200
             Scenario.fresh_tokens 200 Scenario.projects_body);
      [reflexivity | reflexivity | reflexivity | reflexivity | lia | by split
      | reflexivity | lia].
  - rewrite (Hvalidate no_env Scenario.expired Scenario.projects ∅ "AT1" "RT1" JNull 200
               Scenario.fresh_tokens 200 (JObj [("sub", JStr "u1")]));
      [reflexivity | reflexivity | reflexivity | reflexivity | reflexivity | reflexivity
      | reflexivity | lia | by split | reflexivity | lia | reflexivity].
Defined.

(** X20. Whatever the provider answers (the awaited call is taken to
    settle) and for every value of [code], the callback ends with an answer
    after at most one call, and that call is a POST to the token endpoint;
    it never touches Redis, the userinfo endpoint, the backend or the
    store. It redirects exactly when it has written both cookies: the
    answer is the 302 redirect to [APP_URL] with the pair of cookies of a
    token response, or the 400 JSON answer without a cookie directive, or
    the 500 JSON answer, with no cookie directive or with the access cookie
    alone when the refresh cookie could not be written. *)
Theorem callback_redirects_exactly_when_both_cookies_are_set :
  ∀ penv env code st,
    ∃ calls answer,
      run (callback penv env code) st
      = (Ok tt, {| store := st; trace := calls; res := answer |})
      ∧ (count is_refresh calls ≤ 1)%nat
      ∧ count is_redis calls = 0%nat
      ∧ count is_userinfo calls = 0%nat
      ∧ count is_backend calls = 0%nat
      ∧ ((∃ data, answer = {| statusCode := 302; set_cookies := renewed penv data;
                              sent := SentRedirect (APP_URL penv) |})
         ∨ answer = {| statusCode := 400; set_cookies := []; sent := SentJson invalid_code |}
         ∨ answer = {| statusCode := 500; set_cookies := [];
                       sent := SentJson authentication_failed |}
         ∨ ∃ data, answer = {| statusCode := 500;
                               set_cookies := [access_cookie penv (access_token data)];
                               sent := SentJson authentication_failed |}).
Proof.
  intros penv env code st.
  unfold run, callback. walk.
  all: simplify_eq.
  all: eexists _, _; split; [reflexivity |].
  all: simpl; repeat split; try lia.
  all: first [left; by eexists | right; by left | right; right; by left
             | right; right; right; by eexists].
Qed.

(** * A refresh cookie that cannot be written *)

Lemma callback_cut_short_shape penv env code st status data :
  code ≠ "" →
  exchange_reply penv env code = Reply status data →
  200 ≤ status < 300 →
  fits env (access_cookie penv (access_token data)) →
  date_in_range (now env + maxAge (refresh_cookie penv data)) = false →
  run (callback penv env (QString code)) st
  = (Ok tt, answered st [exchange_call penv code] 500
              [access_cookie penv (access_token data)] authentication_failed).
Proof.
  intros Hcode Hreply Hok Haccess Hout.
  unfold exchange_reply in Hreply.
  unfold run, callback, usable_code.
  destruct code as [| c code]; [done |]. cbn [truthy].
  unfold try_catch, bind, axios_post. simpl.
  rewrite Hreply, (settle_ok _ _ Hok).
  by rewrite (res_cookie_fits _ _ _ Haccess), (res_cookie_throws _ _ _ Hout).
Qed.

(** X21. When the provider accepts and the access cookie is written, but
    the expiry date of the refresh cookie ([Date.now() + maxAge]) is no
    valid date, the second [res.cookie] throws inside the [try]. Then
    [refreshTokens] returns [null] with the access cookie left on the
    response; the proxy and the validation handler answer 401 after the
    refresh call, without a retry; and the callback answers 500
    [{error: 'Authentication failed'}] instead of redirecting. In all three
    the access cookie of the new token is the one directive sent. *)
Theorem unwritable_refresh_cookie_ends_the_renewal :
  ∀ penv env status data,
    200 ≤ status < 300 →
    fits env (access_cookie penv (access_token data)) →
    date_in_range (now env + maxAge (refresh_cookie penv data)) = false →
    (∀ refreshToken w,
       refresh_reply penv env (trace w) refreshToken = Reply status data →
       refreshTokens penv env refreshToken w
       = (Ok None,
          {| store := store w;
             trace := trace w ++ [refresh_call penv refreshToken];
             res := {| statusCode := statusCode (res w);
                       set_cookies := set_cookies (res w)
                                      ++ [access_cookie penv (access_token data)];
                       sent := sent (res w) |} |}))
    ∧ (∀ req st token refreshToken d0,
         truthy (cookies req !! "access_token") = Some token →
         truthy (cookies req !! "refresh_token") = Some refreshToken →
         backend env [] (forward penv req token) = Reply 401 d0 →
         refresh_reply penv env [Axios (forward penv req token)] refreshToken
         = Reply status data →
         run (proxy penv env req) st
         = (Ok tt, answered st [Axios (forward penv req token); refresh_call penv refreshToken]
                     401 [access_cookie penv (access_token data)] unauthorized))
    ∧ (∀ req st token refreshToken d0,
         truthy (validate_token req) = Some token →
         truthy (validate_refreshToken req) = Some refreshToken →
         redis_reachable env [] = true →
         truthy (store_get (now env) st (cacheKey token)) = None →
         userinfo_reply penv env [RedisGet (cacheKey token)] token = Reply 401 d0 →
         refresh_reply penv env [RedisGet (cacheKey token); userinfo_call penv token]
           refreshToken = Reply status data →
         run (validate penv env req) st
         = (Ok tt, answered st [RedisGet (cacheKey token); userinfo_call penv token;
                                refresh_call penv refreshToken]
                     401 [access_cookie penv (access_token data)] not_authenticated))
    ∧ (∀ code st,
         code ≠ "" →
         exchange_reply penv env code = Reply status data →
         run (callback penv env (QString code)) st
         = (Ok tt, answered st [exchange_call penv code] 500
                     [access_cookie penv (access_token data)] authentication_failed)).
Proof.
  intros penv env status data Hok Haccess Hout. repeat split.
  - intros refreshToken w Hreply. by apply (refreshTokens_cut_short _ _ _ _ status data).
  - intros req st token refreshToken d0 Htoken Hrefresh Hfirst Hreply.
    by apply (proxy_cut_short_shape _ _ _ _ _ _ d0 status data).
  - intros req st token refreshToken d0 Htoken Hrefresh Hup Hmiss Hfirst Hreply.
    by apply (validate_cut_short_shape _ _ _ _ _ _ d0 status data).
  - intros code st Hcode Hreply.
    by apply (callback_cut_short_shape _ _ _ _ status data).
Qed.

Lemma unwritable_refresh_cookie_ends_the_renewal_witness :
  run (proxy no_env Cases.endless Scenario.projects) ∅
  = (Ok tt, answered ∅ [Axios (forward no_env Scenario.projects "AT1");
                        refresh_call no_env "RT1"]
              401 [access_cookie no_env "AT2"] unauthorized)
  ∧ run (callback no_env Cases.endless (QString "abc")) ∅
    = (Ok tt, answered ∅ [exchange_call no_env "abc"] 500
                [access_cookie no_env "AT2"] authentication_failed).
Proof.
  destruct (unwritable_refresh_cookie_ends_the_renewal no_env Cases.endless 200
              Cases.endless_tokens) as (_ & Hproxy & _ & Hcallback);
    [lia | reflexivity | reflexivity |].
  split.
  - apply (Hproxy Scenario.projects ∅ "AT1" "RT1" JNull); reflexivity.
  - apply (Hcallback "abc" ∅); [discriminate | reflexivity].
Defined.

(** * One key per access token *)

Lemma validate_reads_its_own_key penv env req st st' :
  (∀ token, truthy (validate_token req) = Some token →
            store_get (now env) st (cacheKey token)
            = store_get (now env) st' (cacheKey token)) →
  observed (run (validate penv env req) st) = observed (run (validate penv env req) st').
Proof.
  intros Hsame.
  unfold observed, run, validate, refreshTokens.
  destruct (truthy (validate_token req)) as [token |] eqn:Htoken; [| reflexivity].
  specialize (Hsame token eq_refl).
  repeat first [rewrite <- Hsame | walk_step].
  all: reflexivity.
Qed.

Lemma validate_writes_its_own_keys penv env req st :
  let w := (run (validate penv env req) st).2 in
  store w = st
  ∨ ∃ token text,
      store w = store_set (now env) st (cacheKey token) text 300
      ∧ (truthy (validate_token req) = Some token
         ∨ In (access_cookie penv token) (set_cookies (res w))).
Proof.
  cut (∃ out w, run (validate penv env req) st = (out, w)
       ∧ (store w = st
          ∨ ∃ token text,
              store w = store_set (now env) st (cacheKey token) text 300
              ∧ (truthy (validate_token req) = Some token
                 ∨ In (access_cookie penv token) (set_cookies (res w))))).
  { intros (out & w & -> & H). exact H. }
  unfold run, validate, refreshTokens. walk.
  all: eexists _, _; split; [reflexivity |].
  all: cbn [fst snd store trace res statusCode set_cookies sent start app].
  all: first [ by left
             | right; eexists _, _; split; [reflexivity |];
               first [by left | right; simpl; tauto] ].
Qed.

Lemma validate_leaves_other_keys penv env req st token2 t :
  truthy (validate_token req) ≠ Some token2 →
  ¬ In (access_cookie penv token2) (set_cookies (res (run (validate penv env req) st).2)) →
  store_get t (store (run (validate penv env req) st).2) (cacheKey token2)
  = store_get t st (cacheKey token2).
Proof.
  intros Hother Hcookie.
  destruct (validate_writes_its_own_keys penv env req st)
    as [-> | (token & text & -> & Hwhose)]; [reflexivity |].
  apply store_get_set_ne. intros Hkeys. apply cacheKey_inj in Hkeys. subst token2.
  destruct Hwhose as [Hown | Hnew]; [by apply Hother | by apply Hcookie].
Qed.

(** ** C9: the cache keeps the tokens apart *)

(** C9. The validation route keeps the entries of different access tokens
    apart. The key [userinfo:<token>] determines the token. The route reads
    the cache under the key of the token of its request and under no other:
    on two stores that agree under that key it ends alike, with the same
    calls and the same response. It writes under the key of the token of
    its request, or of the new access token it has set as a cookie, and
    leaves the lookups under every other token as they were, at any time.
    Hence a request with another token is treated on the store a first
    request has left exactly as on the store before it, and is never given
    the entry of the first. The entry is found again only under the
    identical key: when the route has stored the identity for its token, a
    lookup under that token's key returns it while less than 300 seconds
    have passed. *)
Theorem cache_entries_are_isolated_by_token :
  (∀ token1 token2, cacheKey token1 = cacheKey token2 → token1 = token2)
  ∧ (∀ penv env req st st',
       (∀ token, truthy (validate_token req) = Some token →
                 store_get (now env) st (cacheKey token)
                 = store_get (now env) st' (cacheKey token)) →
       observed (run (validate penv env req) st)
       = observed (run (validate penv env req) st'))
  ∧ (∀ penv env req st token2 t,
       truthy (validate_token req) ≠ Some token2 →
       ¬ In (access_cookie penv token2)
            (set_cookies (res (run (validate penv env req) st).2)) →
       store_get t (store (run (validate penv env req) st).2) (cacheKey token2)
       = store_get t st (cacheKey token2))
  ∧ (∀ penv env1 env2 req1 req2 st token2,
       truthy (validate_token req2) = Some token2 →
       truthy (validate_token req1) ≠ Some token2 →
       ¬ In (access_cookie penv token2)
            (set_cookies (res (run (validate penv env1 req1) st).2)) →
       observed (run (validate penv env2 req2) (store (run (validate penv env1 req1) st).2))
       = observed (run (validate penv env2 req2) st))
  ∧ (∀ penv env req st token status user t,
       truthy (validate_token req) = Some token →
       redis_reachable env [] = true →
       redis_reachable env [RedisGet (cacheKey token); userinfo_call penv token] = true →
       truthy (store_get (now env) st (cacheKey token)) = None →
       userinfo_reply penv env [RedisGet (cacheKey token)] token = Reply status user →
       200 ≤ status < 300 →
       t < now env + 300 * 1000 →
       store_get t (store (run (validate penv env req) st).2) (cacheKey token)
       = Some (JSON.stringify (authenticated user))).
Proof.
  split; [exact cacheKey_inj |].
  split; [exact validate_reads_its_own_key |].
  split; [exact validate_leaves_other_keys |].
  split.
  - intros penv env1 env2 req1 req2 st token2 Htoken2 Hother Hcookie.
    apply validate_reads_its_own_key. intros token Htoken.
    rewrite Htoken2 in Htoken. injection Htoken as <-.
    by apply validate_leaves_other_keys.
  - intros penv env req st token status user t Htoken Hup Hup2 Hmiss Hreply Hok Hsoon.
    rewrite (validate_miss_shape penv env req st token status user Htoken Hup Hmiss Hreply Hok).
    rewrite Hup2. simpl. by apply store_get_set_live.
Qed.

(** The first request stores the identity of [AT1]. The second brings
    [AT2] when the provider has withdrawn every token: it is treated as on
    the empty store and answered 401, not with the identity of [AT1]. *)
Lemma cache_entries_are_isolated_by_token_witness :
  let st1 := store (run (validate no_env (Scenario.cache_up 1000) Scenario.projects) ∅).2 in
  store_get 2000 st1 (cacheKey "AT1")
  = Some (JSON.stringify (authenticated (JObj [("sub", JStr "u1")])))
  ∧ observed (run (validate no_env (Scenario.withdrawn 2000) Cases.renewed_request) st1)
    = observed (run (validate no_env (Scenario.withdrawn 2000) Cases.renewed_request) ∅)
  ∧ statusCode (res (run (validate no_env (Scenario.withdrawn 2000) Cases.renewed_request)
                       st1).2) = 401.
Proof.
  destruct cache_entries_are_isolated_by_token as (_ & _ & _ & Hapart & Hsame).
  assert (observed (run (validate no_env (Scenario.withdrawn 2000) Cases.renewed_request)
                      (store (run (validate no_env (Scenario.cache_up 1000)
                                     Scenario.projects) ∅).2))
          = observed (run (validate no_env (Scenario.withdrawn 2000) Cases.renewed_request) ∅))
    as Hsecond.
  { apply (Hapart no_env (Scenario.cache_up 1000) (Scenario.withdrawn 2000)
             Scenario.projects Cases.renewed_request ∅ "AT2").
    - reflexivity.
    - discriminate.
    - vm_compute. tauto. }
  split; [| split].
  - apply (Hsame no_env (Scenario.cache_up 1000) Scenario.projects ∅ "AT1" 200
             (JObj [("sub", JStr "u1")]) 2000);
      [reflexivity | reflexivity | reflexivity | reflexivity | reflexivity | lia | simpl; lia].
  - exact Hsecond.
  - change (statusCode (observed (run (validate no_env (Scenario.withdrawn 2000)
                                         Cases.renewed_request)
                                    (store (run (validate no_env (Scenario.cache_up 1000)
                                                   Scenario.projects) ∅).2))).2 = 401).
    rewrite Hsecond. reflexivity.
Defined.
